(** * realy-web: the client's API wrapper, auth context, transcript socket
      and room initialisation, embedded from the TypeScript sources.

    Layout: the JavaScript values and completions the sources exchange, the
    platform they run on, then one module of definitions per source file
    ([Api] for lib/api, [Auth] for lib/auth, [Websocket] for lib/websocket,
    [Room] for the room page), and the theorems after the definitions. *)

From stdpp Require Import base option list gmap strings pretty.
From Stdlib Require Import ZArith Lia.

Local Open Scope string_scope.
Local Open Scope list_scope.
Local Open Scope Z_scope.
Set Warnings "-register-all".

(** ** JavaScript values *)

(** A value produced by [JSON.parse] or [response.json()]. A number is kept
    as the text JavaScript prints for it; an object as its own properties
    in insertion order, each key once. *)
Inductive JSON : Type :=
| JNull
| JBool (b : bool)
| JNum (lit : string)
| JStr (s : string)
| JArr (items : list JSON)
| JObj (fields : list (string * JSON)).

Inductive JsValue : Type :=
| VUndefined
| VJson (v : JSON).

(** What a [throw] carries. [Error msg] is what [new Error(detail)] makes:
    an error keeps of its argument the string conversion only, its message. The
    others are the errors the platform raises: the three of the language,
    the encoder's, and a [DOMException] of the browser by its name. *)
Inductive Exn : Type :=
| Error (msg : string)
| TypeError
| SyntaxError
| ReferenceError
| URIError
| DOMException (name : string)
| Rejected (reason : string).

(** How a call or an awaited promise ends. *)
Inductive Completion (A : Type) : Type :=
| Return (a : A)
| Throw (e : Exn).
Arguments Return {A} a.
Arguments Throw {A} e.

(** Statements that read and write a store [S] and may throw: the store
    keeps the writes made before a throw. *)
Definition M (S A : Type) : Type := S → Completion A * S.

#[global] Instance M_ret {S} : MRet (M S) := λ A a s, (Return a, s).

#[global] Instance M_bind {S} : MBind (M S) := λ A B f m s,
  match m s with
  | (Return a, s') => f a s'
  | (Throw e, s') => (Throw e, s')
  end.

Definition throw {S A} (e : Exn) : M S A := λ s, (Throw e, s).

(** [try { body } catch { handler }] *)
Definition try_catch {S A} (body : M S A) (handler : Exn → M S A) : M S A := λ s,
  match body s with
  | (Return a, s') => (Return a, s')
  | (Throw e, s') => handler e s'
  end.

(** [try { body } finally { last }] and a promise's [.finally(last)]. *)
Definition finally {S A} (body : M S A) (last : M S ()) : M S A := λ s,
  match body s with
  | (c, s') =>
      match last s' with
      | (Return _, s'') => (c, s'')
      | (Throw e, s'') => (Throw e, s'')
      end
  end.

Definition gets {S A} (f : S → A) : M S A := λ s, (Return (f s), s).
Definition modify {S} (f : S → S) : M S () := λ s, (Return (), f s).
Definition lift {A} (c : Completion A) {S} : M S A := λ s, (c, s).
Definition skip {S} : M S () := mret ().

(** [o.key] for a property that only an object parsed from JSON can own:
    reading it off [null] throws, off any other non-object it is undefined. *)
Fixpoint own_property (key : string) (fields : list (string * JSON)) : JsValue :=
  match fields with
  | [] => VUndefined
  | (k, v) :: rest => if String.eqb k key then VJson v else own_property key rest
  end.

Definition get_property (o : JSON) (key : string) : Completion JsValue :=
  match o with
  | JNull => Throw TypeError
  | JObj fields => Return (own_property key fields)
  | _ => Return VUndefined
  end.

(** [a ?? b] *)
Definition nullish (a : JsValue) (b : JSON) : JSON :=
  match a with
  | VUndefined | VJson JNull => b
  | VJson v => v
  end.

(** [if (s)] on a [string | null]. *)
Definition truthy (s : option string) : bool :=
  match s with
  | Some t => negb (String.eqb t "")
  | None => false
  end.

(** [String(v)] on a value parsed from JSON, the conversion [new Error],
    [localStorage.setItem] and [encodeURIComponent] apply to an argument
    that is no string: an array joins its elements with commas, [null]
    among them as the empty text; an object is [[object Object]], unless
    it owns a [toString] property, which no parsed value can call, and then
    there is no conversion. *)
Fixpoint to_string_json (v : JSON) : option string :=
  match v with
  | JNull => Some "null"
  | JBool true => Some "true"
  | JBool false => Some "false"
  | JNum lit => Some lit
  | JStr s => Some s
  | JArr items =>
      String.concat "," <$>
        (fix elements (l : list JSON) : option (list string) :=
           match l with
           | [] => Some []
           | x :: rest =>
               match match x with JNull => Some "" | _ => to_string_json x end,
                     elements rest with
               | Some a, Some b => Some (a :: b)
               | _, _ => None
               end
           end) items
  | JObj fields =>
      match own_property "toString" fields with
      | VUndefined => Some "[object Object]"
      | VJson _ => None
      end
  end.

(** The conversion as an operation: where there is none, a [TypeError]. *)
Definition to_string (v : JsValue) : Completion string :=
  match v with
  | VUndefined => Return "undefined"
  | VJson j =>
      match to_string_json j with
      | Some s => Return s
      | None => Throw TypeError
      end
  end.

(** [v.key] on whatever a call returned: reading a property off
    [undefined] throws as off [null]. *)
Definition property_of (v : JsValue) (key : string) : Completion JsValue :=
  match v with
  | VUndefined => Throw TypeError
  | VJson o => get_property o key
  end.

(** [haystack.includes(needle)] *)
Fixpoint includes (haystack needle : string) : bool :=
  String.prefix needle haystack ||
  match haystack with
  | EmptyString => false
  | String _ rest => includes rest needle
  end.

(** [err instanceof Error ? err.message : none]: an [Error] made by the
    sources carries its message, an error of the platform the text the
    platform gives it, and a rejection with a plain reason is no error. *)
Definition message (builtin : Exn → string) (e : Exn) : option string :=
  match e with
  | Error msg => Some msg
  | Rejected _ => None
  | TypeError | SyntaxError | ReferenceError | URIError | DOMException _ =>
      Some (builtin e)
  end.

(** [String(err)] for what is no [Error]. *)
Definition reason_of (e : Exn) : string :=
  match e with
  | Rejected reason => reason
  | _ => ""
  end.

(** ** The platform *)

(** A request as [fetch(url, init)] receives it. *)
Record Request : Type := {
  req_url : string;
  req_method : option string;
  req_headers : gmap string string;
  req_body : option string;
}.

(** A response: its status and what [response.json()] settles to. *)
Record Response : Type := {
  status : Z;
  json : Completion JSON;
}.

(** [response.ok] *)
Definition ok (r : Response) : bool := (200 <=? status r)%Z && (status r <=? 299)%Z.

(** The environment the sources run in and do not define: the build-time
    endpoint, the built-in serialiser, parser and URI encoder (which throws
    on a text it cannot encode), whether the browser takes a write of a key
    and a value to a storage that holds what it holds (it throws when the
    storage is full or shut), and the network with the server behind it,
    which answers a request knowing the requests made before. *)
Class Platform : Type := {
  NEXT_PUBLIC_API_URL : option string;
  JSON_stringify : JSON → string;
  JSON_parse : string → Completion JSON;
  encodeURIComponent : string → Completion string;
  setItem : gmap string string → string → string → Completion ();
  fetch : list Request → Request → Completion Response;
}.

(** [localStorage.setItem(key, value)] on a storage: the write is made, or
    the call throws and the storage is as it was. *)
Definition set_item `{Platform} (key value : string) (store : gmap string string)
    : Completion (gmap string string) :=
  match setItem store key value with
  | Return _ => Return (<[key := value]> store)
  | Throw e => Throw e
  end.

(** A cookie of the page, kept under its name and path. *)
Record Cookie : Type := {
  cookie_value : string;
  cookie_expires : Z;
}.

(** The page's window: [localStorage], the jar behind [document.cookie] and
    the clock behind [Date.now()], in milliseconds since the epoch. *)
Record Window : Type := {
  localStorage : gmap string string;
  cookie_jar : gmap (string * string) Cookie;
  Date_now : Z;
}.

(** Where lib/api runs: in a page ([window] defined) or on the server. *)
Record Net : Type := {
  window : option Window;
  requests : list Request;
}.

(** A write to [localStorage] or [document.cookie]: with no [window] the
    global is not defined and the reference throws. *)
Definition with_window (f : Window → Window) : M Net () := λ n,
  match window n with
  | None => (Throw ReferenceError, n)
  | Some w => (Return (), {| window := Some (f w); requests := requests n |})
  end.

(** A write that may throw: the window is replaced when it does not. *)
Definition try_window (f : Window → Completion Window) : M Net () := λ n,
  match window n with
  | None => (Throw ReferenceError, n)
  | Some w =>
      match f w with
      | Return w' => (Return (), {| window := Some w'; requests := requests n |})
      | Throw e => (Throw e, n)
      end
  end.

(** ** lib/api *)
Module Api.

Section WithPlatform.
Context `{Platform}.

Definition BASE_URL : string := default "http://localhost:8000" NEXT_PUBLIC_API_URL.

Definition TOKEN_KEY : string := "relay_access_token".

Definition getToken : M Net (option string) := λ n,
  match window n with
  | None => (Return None, n)
  | Some w => (Return (localStorage w !! TOKEN_KEY), n)
  end.

(** [setToken(token)], on whatever the caller passes: [setItem] converts
    its argument to a string, then writes. *)
Definition setToken (token : JsValue) : M Net () :=
  try_window (λ w,
    match to_string token with
    | Return t =>
        match set_item TOKEN_KEY t (localStorage w) with
        | Return store =>
            Return {| localStorage := store; cookie_jar := cookie_jar w;
                      Date_now := Date_now w |}
        | Throw e => Throw e
        end
    | Throw e => Throw e
    end).

Definition clearToken : M Net () :=
  with_window (λ w, {| localStorage := delete TOKEN_KEY (localStorage w);
                       cookie_jar := cookie_jar w; Date_now := Date_now w |}).

Record RequestOptions : Type := {
  body : option JSON;
  auth : option bool;
  init_method : option string;
  init_headers : option (gmap string string);
}.

(** [{}], the default options. *)
Definition no_options : RequestOptions :=
  {| body := None; auth := None; init_method := None; init_headers := None |}.

(** [await fetch(url, init)]: the request is recorded, the network answers. *)
Definition do_fetch (r : Request) : M Net Response := λ n,
  (fetch (requests n) r, {| window := window n; requests := requests n ++ [r] |}).

(** The [try] block of the failure path: the detail the thrown error gets
    when the block completes. *)
Definition error_detail (response : Response) : M Net JSON :=
  err ← lift (json response);
  d ← lift (get_property err "detail");
  mret (nullish d (JStr (JSON_stringify err))).

(** The first half of [apiFetch]: the headers, with the credential when
    [auth] holds and one is stored, and the [init] object given to [fetch]. *)
Definition request (path : string) (options : RequestOptions) : M Net Request :=
  let headers0 : gmap string string :=
    default ∅ (init_headers options) ∪ {["Content-Type" := "application/json"]} in
  headers ← (if default true (auth options) then
               token ← getToken;
               if truthy token
               then mret (<["Authorization" := "Bearer " +:+ default "" token]> headers0)
               else mret headers0
             else mret headers0);
  mret {| req_url := BASE_URL +:+ path;
          req_method := init_method options;
          req_headers := headers;
          req_body := JSON_stringify <$> body options |}.

(** The second half: what the caller gets for a response. *)
Definition settle (response : Response) : M Net JsValue :=
  if negb (ok response) then
    detail ← try_catch (error_detail response)
                       (λ _, mret (JStr ("HTTP " +:+ pretty (status response))));
    msg ← lift (to_string (VJson detail));
    throw (Error msg)
  else if (status response =? 204)%Z then mret VUndefined
  else v ← lift (json response); mret (VJson v).

(** [apiFetch(path, { body, auth = true, ...init })], in the order of the
    source: build the request, await [fetch], settle the response. Of
    [init] the method and the headers are kept. *)
Definition apiFetch (path : string) (options : RequestOptions) : M Net JsValue :=
  r ← request path options;
  response ← do_fetch r;
  settle response.

Definition getMe : M Net JsValue := apiFetch "/auth/me" no_options.

Definition getMyCompany : M Net JsValue := apiFetch "/companies/me" no_options.

Definition getMeetingByCode (code : string) : M Net JsValue :=
  apiFetch ("/meetings/code/" +:+ code)
    {| body := None; auth := Some false; init_method := None; init_headers := None |}.

Definition joinMeeting (data : JSON) : M Net JsValue :=
  apiFetch "/participants/"
    {| body := Some data; auth := Some false; init_method := Some "POST";
       init_headers := None |}.

Definition listParticipants (meetingId : string) : M Net JsValue :=
  apiFetch ("/participants/meeting/" +:+ meetingId)
    {| body := None; auth := Some false; init_method := None; init_headers := None |}.

Definition loginCompany (email password : string) : M Net JsValue :=
  apiFetch "/auth/login"
    {| body := Some (JObj [("email", JStr email); ("password", JStr password)]);
       auth := Some false; init_method := Some "POST"; init_headers := None |}.

Definition registerCompany (name email password : string) : M Net JsValue :=
  apiFetch "/auth/register"
    {| body := Some (JObj [("name", JStr name); ("email", JStr email);
                           ("password", JStr password)]);
       auth := Some false; init_method := Some "POST"; init_headers := None |}.

Definition listMeetings : M Net JsValue := apiFetch "/meetings/" no_options.

Definition createMeeting (data : JSON) : M Net JsValue :=
  apiFetch "/meetings/"
    {| body := Some data; auth := None; init_method := Some "POST";
       init_headers := None |}.

Definition getMeeting (meetingId : string) : M Net JsValue :=
  apiFetch ("/meetings/" +:+ meetingId) no_options.

Definition endMeeting (meetingId : string) : M Net JsValue :=
  apiFetch ("/meetings/" +:+ meetingId +:+ "/end")
    {| body := None; auth := None; init_method := Some "POST"; init_headers := None |}.

Definition deleteMeeting (meetingId : string) : M Net JsValue :=
  apiFetch ("/meetings/" +:+ meetingId)
    {| body := None; auth := None; init_method := Some "DELETE";
       init_headers := None |}.

Definition leaveMeeting (participantId : string) : M Net JsValue :=
  apiFetch ("/participants/" +:+ participantId +:+ "/leave")
    {| body := None; auth := Some false; init_method := Some "POST";
       init_headers := None |}.

Definition getMeetingAnalytics (meetingId : string) : M Net JsValue :=
  apiFetch ("/analytics/meeting/" +:+ meetingId) no_options.

Definition getMeetingSummaries (meetingId : string) : M Net JsValue :=
  apiFetch ("/summaries/meeting/" +:+ meetingId) no_options.

Definition getMeetingTranscripts (meetingId : string) : M Net JsValue :=
  apiFetch ("/transcripts/meeting/" +:+ meetingId) no_options.

End WithPlatform.
End Api.

(** ** lib/auth *)
Module Auth.

Section WithPlatform.
Context `{Platform}.

(** The browser's handling of [document.cookie = "name=value; expires=...;
    path=..."]: a cookie is kept under its name and path, and one whose
    expiry is not in the future is evicted. *)
Definition assign_cookie (name value : string) (expires : Z) (path : string)
    (w : Window) : Window :=
  {| localStorage := localStorage w;
     cookie_jar :=
       if (expires <=? Date_now w)%Z
       then delete (name, path) (cookie_jar w)
       else <[(name, path) := {| cookie_value := value; cookie_expires := expires |}]>
              (cookie_jar w);
     Date_now := Date_now w |}.

(** [days * 864e5] for the default [days = 0.5]. *)
Definition HALF_DAY_MS : Z := 43200000.

(** [setCookie(name, value)], with the default lifetime, on whatever the
    caller passes as the value: it is converted to a string and encoded,
    either of which may throw, before the cookie is assigned. *)
Definition setCookie (name : string) (value : JsValue) : M Net () :=
  try_window (λ w,
    match to_string value with
    | Return t =>
        match encodeURIComponent t with
        | Return encoded =>
            Return (assign_cookie name encoded (Date_now w + HALF_DAY_MS) "/" w)
        | Throw e => Throw e
        end
    | Throw e => Throw e
    end).

(** The expiry is [Thu, 01 Jan 1970 00:00:00 GMT], the epoch. *)
Definition deleteCookie (name : string) : M Net () :=
  with_window (assign_cookie name "" 0 "/").

(** The provider's state: the page it runs in with the requests it made,
    and the two [useState] cells. *)
Record AuthState : Type := {
  net : Net;
  user : JsValue;
  isLoading : bool;
}.

(** The state on mount: [useState(null)] and [useState(true)]. *)
Definition mounted (n : Net) : AuthState :=
  {| net := n; user := VJson JNull; isLoading := true |}.

Definition in_net {A} (m : M Net A) : M AuthState A := λ s,
  match m (net s) with
  | (c, n') => (c, {| net := n'; user := user s; isLoading := isLoading s |})
  end.

Definition setUser (u : JsValue) : M AuthState () :=
  modify (λ s, {| net := net s; user := u; isLoading := isLoading s |}).

Definition setIsLoading (b : bool) : M AuthState () :=
  modify (λ s, {| net := net s; user := user s; isLoading := b |}).

(** The mount effect, run to the end of its promise chain
    [getMe().then(setUser).catch(() => clearToken()).finally(...)]. *)
Definition restore : M AuthState () :=
  token ← in_net Api.getToken;
  if negb (truthy token) then setIsLoading false
  else
    finally
      (try_catch (me ← in_net Api.getMe; setUser me)
                 (λ _, in_net Api.clearToken))
      (setIsLoading false).

Definition logout : M AuthState () :=
  in_net Api.clearToken;;
  in_net (deleteCookie "relay_token");;
  setUser (VJson JNull).

(** [login]: the gateway's answer is read twice for its [access_token],
    once for the durable store and once for the cookie, each write
    converting what it is given to a string. *)
Definition login (email password : string) : M AuthState () :=
  tokenData ← in_net (Api.loginCompany email password);
  token ← lift (property_of tokenData "access_token");
  in_net (Api.setToken token);;
  token' ← lift (property_of tokenData "access_token");
  in_net (setCookie "relay_token" token');;
  me ← in_net Api.getMe;
  setUser me.

Definition register (name email password : string) : M AuthState () :=
  in_net (Api.registerCompany name email password);;
  login email password.

(** The two persistence surfaces of the credential: the durable store,
    read by lib/api, and the cookie, read by the route guard. *)
Definition stored_token (s : AuthState) : option string :=
  w ← window (net s); localStorage w !! Api.TOKEN_KEY.

Definition cookie_token (s : AuthState) : option string :=
  w ← window (net s); cookie_value <$> cookie_jar w !! ("relay_token", "/").

(** [isAuthenticated: !!user], the truthiness of a JSON value. *)
Definition isAuthenticated (s : AuthState) : bool :=
  match user s with
  | VUndefined | VJson JNull => false
  | VJson (JBool b) => b
  | VJson (JNum lit) => negb (String.eqb lit "0")
  | VJson (JStr t) => negb (String.eqb t "")
  | VJson _ => true
  end.

End WithPlatform.
End Auth.

(** ** lib/websocket *)
Module Websocket.

(** The argument of a [StatusHandler]. *)
Inductive Status : Type := connecting | open | closed | error.

(** [WebSocket.readyState] *)
Inductive ReadyState : Type := CONNECTING | OPEN | CLOSING | CLOSED.

#[global] Instance ReadyState_eq_dec : EqDecision ReadyState.
Proof. solve_decision. Defined.

(** An outbound frame: a binary audio chunk or a text. *)
Inductive Payload : Type :=
| Binary (chunk : list Byte.byte)
| Text (text : string).

(** A transport the browser holds, named by the order of its creation. *)
Record Socket : Type := {
  url : string;
  readyState : ReadyState;
}.

(** What the client does to its collaborators, in order: calls of its two
    callbacks, of the transport and of the timer API. [Uncaught] records
    an exception that left an event handler. *)
Inductive Effect : Type :=
| CallStatus (s : Status)
| CallTranscript (data : JSON)
| NewWebSocket (id : nat) (address : string)
| Send (id : nat) (p : Payload)
| Close (id : nat)
| SetTimeout (h : positive) (ms : Z)
| ClearTimeout (h : positive)
| Uncaught (e : Exn).

(** The private fields of a [RelayWebSocket]. [ws] refers to a transport of
    the browser; the two callbacks are kept by how they complete, their
    calls being recorded as effects. A timer handle is a positive integer. *)
Record RelayWebSocket : Type := {
  ws : option nat;
  meetingId : string;
  participantId : string;
  onTranscript : JSON → Completion ();
  onStatus : Status → Completion ();
  reconnectTimer : option positive;
  shouldReconnect : bool;
}.

(** One client and the browser around it: every transport created so far,
    the pending timeouts (each one's callback is [() => this.connect()])
    with their delays, the next timer handle, and the effects so far. *)
Record World : Type := {
  this : RelayWebSocket;
  sockets : list Socket;
  timers : gmap positive Z;
  next_timer : positive;
  trace : list Effect;
}.

Definition set_this (f : RelayWebSocket → RelayWebSocket) (w : World) : World :=
  {| this := f (this w); sockets := sockets w; timers := timers w;
     next_timer := next_timer w; trace := trace w |}.

Definition emit (e : Effect) (w : World) : World :=
  {| this := this w; sockets := sockets w; timers := timers w;
     next_timer := next_timer w; trace := trace w ++ [e] |}.

Definition set_ws (o : option nat) (c : RelayWebSocket) : RelayWebSocket :=
  {| ws := o; meetingId := meetingId c; participantId := participantId c;
     onTranscript := onTranscript c; onStatus := onStatus c;
     reconnectTimer := reconnectTimer c; shouldReconnect := shouldReconnect c |}.

Definition set_reconnectTimer (o : option positive) (c : RelayWebSocket) : RelayWebSocket :=
  {| ws := ws c; meetingId := meetingId c; participantId := participantId c;
     onTranscript := onTranscript c; onStatus := onStatus c;
     reconnectTimer := o; shouldReconnect := shouldReconnect c |}.

Definition set_shouldReconnect (b : bool) (c : RelayWebSocket) : RelayWebSocket :=
  {| ws := ws c; meetingId := meetingId c; participantId := participantId c;
     onTranscript := onTranscript c; onStatus := onStatus c;
     reconnectTimer := reconnectTimer c; shouldReconnect := b |}.

Definition set_readyState (id : nat) (r : ReadyState) (w : World) : World :=
  {| this := this w;
     sockets := alter (λ s, {| url := url s; readyState := r |}) id (sockets w);
     timers := timers w; next_timer := next_timer w; trace := trace w |}.

(** The [readyState] of the transport named [id], if there is one. *)
Definition state_of (w : World) (id : nat) : option ReadyState :=
  readyState <$> sockets w !! id.

(** A transport is live while it is connecting or open. *)
Definition is_live (r : option ReadyState) : bool :=
  match r with Some CONNECTING | Some OPEN => true | _ => false end.

(** [this.ws?.readyState] *)
Definition ws_readyState (w : World) : option ReadyState :=
  id ← ws (this w); state_of w id.

(** [this.ws?.readyState === WebSocket.OPEN], the getter [isConnected]. *)
Definition isConnected (w : World) : bool :=
  bool_decide (ws_readyState w = Some OPEN).

Section WithPlatform.
Context `{Platform}.

(** [s.replace(/^http/, "ws")] *)
Definition replace_http (s : string) : string :=
  if String.prefix "http" s
  then "ws" +:+ String.substring 4 (String.length s - 4) s
  else s.

Definition WS_BASE_URL : string :=
  replace_http (default "http://localhost:8000" NEXT_PUBLIC_API_URL).

(** [new RelayWebSocket(meetingId, participantId, onTranscript, onStatus)] *)
Definition new (meeting participant : string)
    (transcript : JSON → Completion ()) (status : Status → Completion ())
    : RelayWebSocket :=
  {| ws := None; meetingId := meeting; participantId := participant;
     onTranscript := transcript; onStatus := status;
     reconnectTimer := None; shouldReconnect := true |}.

(** A page that has just constructed the client. *)
Definition page (c : RelayWebSocket) : World :=
  {| this := c; sockets := []; timers := ∅; next_timer := 1%positive; trace := [] |}.

Definition call_onStatus (s : Status) : M World () := λ w,
  (onStatus (this w) s, emit (CallStatus s) w).

Definition call_onTranscript (data : JSON) : M World () := λ w,
  (onTranscript (this w) data, emit (CallTranscript data) w).

(** [this.ws = new WebSocket(url)] followed by the four handler
    assignments: every transport of the world carries the handlers below.
    The constructor is taken to accept the address. *)
Definition new_WebSocket (address : string) : M World () :=
  modify (λ w,
    let id := length (sockets w) in
    {| this := set_ws (Some id) (this w);
       sockets := sockets w ++ [{| url := address; readyState := CONNECTING |}];
       timers := timers w; next_timer := next_timer w;
       trace := trace w ++ [NewWebSocket id address] |}).

Definition connect : M World () :=
  connected ← gets isConnected;
  if (connected : bool) then skip
  else
    address ← gets (λ w, WS_BASE_URL +:+ "/ws/" +:+ meetingId (this w)
                          +:+ "/" +:+ participantId (this w));
    call_onStatus connecting;;
    new_WebSocket address.

(** [setTimeout(() => this.connect(), ms)] *)
Definition setTimeout (ms : Z) : M World positive := λ w,
  let h := next_timer w in
  (Return h,
   {| this := this w; sockets := sockets w;
      timers := <[h := ms]> (timers w); next_timer := (h + 1)%positive;
      trace := trace w ++ [SetTimeout h ms] |}).

Definition clearTimeout (h : positive) : M World () :=
  modify (λ w,
    {| this := this w; sockets := sockets w;
       timers := delete h (timers w); next_timer := next_timer w;
       trace := trace w ++ [ClearTimeout h] |}).

Definition onopen : M World () := call_onStatus open.

Definition onmessage (data : string) : M World () :=
  try_catch (parsed ← lift (JSON_parse data); call_onTranscript parsed)
            (λ _, skip).

Definition onerror : M World () := call_onStatus error.

Definition onclose : M World () :=
  call_onStatus closed;;
  again ← gets (λ w, shouldReconnect (this w));
  if (again : bool) then
    h ← setTimeout 3000;
    modify (set_this (set_reconnectTimer (Some h)))
  else skip.

(** [this.ws.send(payload)], reached under the [isConnected] test only. *)
Definition ws_send (p : Payload) : M World () :=
  modify (λ w, match ws (this w) with
               | Some id => emit (Send id p) w
               | None => w
               end).

Definition sendAudioChunk (chunk : list Byte.byte) : M World () :=
  connected ← gets isConnected;
  if (connected : bool) then ws_send (Binary chunk) else skip.

Definition sendText (text : string) : M World () :=
  connected ← gets isConnected;
  if (connected : bool) then ws_send (Text text) else skip.

(** [this.ws?.close()]: a transport that is connecting or open starts its
    closing handshake; on any other the call does nothing. *)
Definition close_current (w : World) : World :=
  match ws (this w) with
  | Some id =>
      if is_live (state_of w id)
      then emit (Close id) (set_readyState id CLOSING w)
      else emit (Close id) w
  | None => w
  end.

Definition ws_close : M World () := modify close_current.

Definition disconnect : M World () :=
  modify (set_this (set_shouldReconnect false));;
  timer ← gets (λ w, reconnectTimer (this w));
  match (timer : option positive) with
  | Some h => clearTimeout h;; modify (set_this (set_reconnectTimer None))
  | None => skip
  end;;
  ws_close;;
  modify (set_this (set_ws None)).

(** *** The browser's side *)

(** What the browser does to the client between its calls. The data of a
    message is the text [JSON.parse] is given, [event.data] as a string. *)
Inductive Event : Type :=
| Opened (id : nat)
| Message (id : nat) (data : string)
| Errored (id : nat)
| Closed (id : nat)
| TimerFired (h : positive).

(** When the browser can produce an event: a transport opens once, while
    connecting; delivers messages while open; errs and closes while not yet
    closed; a timeout fires while pending. *)
Definition enabled (e : Event) (w : World) : bool :=
  match e with
  | Opened id => bool_decide (state_of w id = Some CONNECTING)
  | Message id _ => bool_decide (state_of w id = Some OPEN)
  | Errored id | Closed id =>
      match state_of w id with
      | Some CLOSED | None => false
      | Some _ => true
      end
  | TimerFired h => bool_decide (is_Some (timers w !! h))
  end.

(** A handler run as a task of its own: an exception that leaves it goes to
    nobody, and is recorded. *)
Definition task (m : M World ()) (w : World) : World :=
  match m w with
  | (Return _, w') => w'
  | (Throw e, w') => emit (Uncaught e) w'
  end.

Definition remove_timer (h : positive) (w : World) : World :=
  {| this := this w; sockets := sockets w; timers := delete h (timers w);
     next_timer := next_timer w; trace := trace w |}.

(** The browser delivers an enabled event: it updates the transport or the
    timer table and runs the handler installed for it. *)
Definition deliver (e : Event) (w : World) : World :=
  if enabled e w then
    match e with
    | Opened id => task onopen (set_readyState id OPEN w)
    | Message _ data => task (onmessage data) w
    | Errored _ => task onerror w
    | Closed id => task onclose (set_readyState id CLOSED w)
    | TimerFired h => task connect (remove_timer h w)
    end
  else w.

(** What happens to a client: its owner calls a public method, or the
    browser delivers an event. *)
Inductive Action : Type :=
| Connect
| SendAudioChunk (chunk : list Byte.byte)
| SendText (text : string)
| Disconnect
| Browser (e : Event).

Definition step (a : Action) (w : World) : World :=
  match a with
  | Connect => (connect w).2
  | SendAudioChunk chunk => (sendAudioChunk chunk w).2
  | SendText text => (sendText text w).2
  | Disconnect => (disconnect w).2
  | Browser e => deliver e w
  end.

Definition run (actions : list Action) (w : World) : World :=
  foldl (λ w a, step a w) w actions.

(** The transports that are connecting or open. *)
Definition live (w : World) : list nat :=
  List.filter (λ id, is_live (state_of w id)) (seq 0 (length (sockets w))).

(** The timeouts scheduled so far. *)
Definition scheduled (w : World) : list Effect :=
  List.filter (λ e, match e with SetTimeout _ _ => true | _ => false end) (trace w).

(** The transports created so far. *)
Definition attempts (w : World) : list Effect :=
  List.filter (λ e, match e with NewWebSocket _ _ => true | _ => false end) (trace w).

(** Reconnection is disabled. *)
Definition off (w : World) : Prop := shouldReconnect (this w) = false.

(** A statement is quiet when, run with reconnection disabled, it leaves it
    disabled, schedules no timeout and adds no pending one. *)
Definition quiet {A} (m : M World A) : Prop :=
  ∀ w, off w →
    off (m w).2 ∧ scheduled (m w).2 = scheduled w ∧ timers (m w).2 ⊆ timers w.

(** The discipline of a client whose owner calls [connect] once: only the
    transport the client refers to is live; while reconnection is enabled
    no transport is in its closing handshake; and at most one timeout is
    pending, the one the client keeps, with reconnection enabled and no
    transport live. *)
Record orderly (w : World) : Prop := {
  live_is_current : ∀ id, is_live (state_of w id) = true → ws (this w) = Some id;
  closing_is_final :
    shouldReconnect (this w) = true → ∀ id, state_of w id ≠ Some CLOSING;
  one_timer :
    timers w = ∅ ∨
    ∃ h, timers w = {[h := 3000]} ∧ reconnectTimer (this w) = Some h ∧
         shouldReconnect (this w) = true ∧ ∀ id, is_live (state_of w id) = false;
}.

(** A statement is steady when it opens no transport. *)
Definition steady {A} (m : M World A) : Prop :=
  ∀ w, attempts (m w).2 = attempts w.

(** The address [connect] computes for a client. *)
Definition address_of (c : RelayWebSocket) : string :=
  WS_BASE_URL +:+ "/ws/" +:+ meetingId c +:+ "/" +:+ participantId c.

(** The client keeps its meeting and participant, and every transport of
    the world was opened at the address they give. *)
Definition addressed (c : RelayWebSocket) (w : World) : Prop :=
  meetingId (this w) = meetingId c ∧
  participantId (this w) = participantId c ∧
  Forall (λ s, url s = address_of c) (sockets w).

(** The messages handed to the transcript callback so far, in order. *)
Definition transcripts (w : World) : list JSON :=
  omap (λ e, match e with CallTranscript data => Some data | _ => None end) (trace w).

(** What a frame parses to, if it parses. *)
Definition well_formed (data : string) : option JSON :=
  match JSON_parse data with
  | Return v => Some v
  | Throw _ => None
  end.

End WithPlatform.
End Websocket.

(** ** The room page *)
Module Room.

(** The interfaces of the types file, with the fields the page reads;
    each [id] field is named after its record, and a role is kept as the
    string it is. *)
Record AuthUser : Type := {
  email : string;
  role : string;
  entity_id : string;
}.

Record Company : Type := {
  company_id : string;
  company_name : string;
  company_email : string;
  is_active : bool;
}.

Record Meeting : Type := {
  meeting_id : string;
  code : string;
  title : string;
  host_name : option string;
}.

Record Participant : Type := {
  participant_id : string;
  participant_name : string;
}.

Record ParticipantCreate : Type := {
  create_meeting_id : string;
  create_name : string;
  preferred_language : string;
  is_registered : option bool;
}.

(** The calls [init] makes into lib/api while it resolves the participant. *)
Inductive ApiCall : Type :=
| GetMeetingByCode (c : string)
| ListParticipants (meeting : string)
| GetMyCompany
| JoinMeeting (data : ParticipantCreate).

(** Whether lib/api attaches the stored credential to a call: the three
    in-meeting endpoints pass [auth: false], [getMyCompany] keeps the
    default (see [Api.getMeetingByCode] and its neighbours). *)
Definition attaches_credential (c : ApiCall) : bool :=
  match c with
  | GetMyCompany => true
  | GetMeetingByCode _ | ListParticipants _ | JoinMeeting _ => false
  end.

Definition is_join (c : ApiCall) : bool :=
  match c with JoinMeeting _ => true | _ => false end.

(** The server behind lib/api, at the types the endpoint functions
    declare: each answer may depend on the calls made before. *)
Class Backend : Type := {
  getMeetingByCode : list ApiCall → string → Completion Meeting;
  listParticipants : list ApiCall → string → Completion (list Participant);
  getMyCompany : list ApiCall → Completion Company;
  joinMeeting : list ApiCall → ParticipantCreate → Completion Participant;
}.

(** The page's [useState] cells and refs that [init] writes while it
    resolves the participant, the page's [localStorage], and the calls
    made so far. *)
Record RoomState : Type := {
  initialized : bool;
  meeting : option Meeting;
  company : option Company;
  participants : list Participant;
  participantId : option string;
  isHost : bool;
  displayName : string;
  error : option string;
  storage : gmap string string;
  calls : list ApiCall;
}.

(** The page on mount. *)
Definition mounted (store : gmap string string) : RoomState :=
  {| initialized := false; meeting := None; company := None; participants := [];
     participantId := None; isHost := false; displayName := "You"; error := None;
     storage := store; calls := [] |}.

(** The participant id that passes [if (pid)]: the one
    [searchParams.get("participantId")] gave, when it is a non-empty
    string. *)
Definition supplied (pid : option string) : option string :=
  if truthy pid then pid else None.

(** A user id of the audio channel: a number or a string. *)
Inductive UID : Type :=
| UNum (n : Z)
| UStr (s : string).

(** [a === b] on user ids: never across the two kinds. *)
Definition strict_eq (a b : UID) : bool :=
  match a, b with
  | UNum x, UNum y => (x =? y)%Z
  | UStr x, UStr y => String.eqb x y
  | _, _ => false
  end.

(** A remote user of the audio channel, as far as the page looks at it. *)
Record RemoteUser : Type := {
  uid : UID;
  hasAudio : bool;
}.

(** The update of [remoteUsers] at the end of the [user-published]
    handler: [prev.find((u) => u.uid === remoteUser.uid)] gives an object
    or nothing, and the list is kept when it gives one. *)
Definition user_published (remoteUser : RemoteUser) (prev : list RemoteUser)
    : list RemoteUser :=
  if existsb (λ u, strict_eq (uid u) (uid remoteUser)) prev then prev
  else prev ++ [remoteUser].

(** The update on [user-left]:
    [prev.filter((u) => u.uid !== remoteUser.uid)]. *)
Definition user_left (remoteUser : RemoteUser) (prev : list RemoteUser)
    : list RemoteUser :=
  List.filter (λ u, negb (strict_eq (uid u) (uid remoteUser))) prev.

(** The channel's events the page listens to. A [user-published] handler
    updates the list only when its [try] block got that far: [subscribed]
    says whether [client.subscribe] and the playback before the update
    returned; when one of them threw, the [catch] logs and nothing else. *)
Inductive ChannelEvent : Type :=
| Published (u : RemoteUser) (subscribed : bool)
| Left (u : RemoteUser).

Definition on_channel (e : ChannelEvent) (prev : list RemoteUser) : list RemoteUser :=
  match e with
  | Published u true => user_published u prev
  | Published u false => prev
  | Left u => user_left u prev
  end.

(** [remoteUsers] after the events of a session, from [useState([])]. *)
Definition remote_users (events : list ChannelEvent) : list RemoteUser :=
  foldl (λ prev e, on_channel e prev) [] events.

Section WithBackend.
Context `{Backend}.

Definition record_call (c : ApiCall) (s : RoomState) : RoomState :=
  {| initialized := initialized s; meeting := meeting s; company := company s;
     participants := participants s; participantId := participantId s;
     isHost := isHost s; displayName := displayName s; error := error s;
     storage := storage s; calls := calls s ++ [c] |}.

(** [await endpoint(...)]: the call is recorded, the server answers. *)
Definition call {A} (c : ApiCall) (answer : list ApiCall → Completion A) : M RoomState A :=
  λ s, (answer (calls s), record_call c s).

Definition setMeeting (m : Meeting) : M RoomState () :=
  modify (λ s,
    {| initialized := initialized s; meeting := Some m; company := company s;
       participants := participants s; participantId := participantId s;
       isHost := isHost s; displayName := displayName s; error := error s;
       storage := storage s; calls := calls s |}).

Definition setParticipants (l : list Participant) : M RoomState () :=
  modify (λ s,
    {| initialized := initialized s; meeting := meeting s; company := company s;
       participants := l; participantId := participantId s;
       isHost := isHost s; displayName := displayName s; error := error s;
       storage := storage s; calls := calls s |}).

Definition setCompany (c : Company) : M RoomState () :=
  modify (λ s,
    {| initialized := initialized s; meeting := meeting s; company := Some c;
       participants := participants s; participantId := participantId s;
       isHost := isHost s; displayName := displayName s; error := error s;
       storage := storage s; calls := calls s |}).

(** [setParticipantId(id); setIsHost(host); setDisplayName(name)] *)
Definition setIdentity (id : string) (host : bool) (name : string) : M RoomState () :=
  modify (λ s,
    {| initialized := initialized s; meeting := meeting s; company := company s;
       participants := participants s; participantId := Some id;
       isHost := host; displayName := name; error := error s;
       storage := storage s; calls := calls s |}).

Definition setError (msg : string) : M RoomState () :=
  modify (λ s,
    {| initialized := initialized s; meeting := meeting s; company := company s;
       participants := participants s; participantId := participantId s;
       isHost := isHost s; displayName := displayName s; error := Some msg;
       storage := storage s; calls := calls s |}).

(** [storedName || "Participant"] *)
Definition stored_name (s : RoomState) : string :=
  match storage s !! "relay_participant_name" with
  | Some n => if String.eqb n "" then "Participant" else n
  | None => "Participant"
  end.

(** The host's name: the company's when it can be fetched, else the
    identity's email. *)
Definition host_name_of (u : AuthUser) : M RoomState string :=
  try_catch (c ← call GetMyCompany getMyCompany;
             setCompany c;;
             mret (company_name c))
            (λ _,
             setCompany {| company_id := ""; company_name := email u;
                           company_email := email u; is_active := true |};;
             mret (email u)).

(** [init], from the meeting lookup to the resolved participant: the
    result is [participantIdToUse], or nothing when [init] returned after
    [setError]. What follows in the source (audio channel, socket) starts
    from that participant id. The [console.log] calls write no state and
    are left out. *)
Definition init (p_code : string) (pid : option string) (u : option AuthUser)
    : M RoomState (option string) :=
  m ← call (GetMeetingByCode p_code) (λ past, getMeetingByCode past p_code);
  setMeeting m;;
  try_catch (l ← call (ListParticipants (meeting_id m))
                      (λ past, listParticipants past (meeting_id m));
             setParticipants l)
            (λ _, skip);;
  if truthy pid then
    name ← gets stored_name;
    setIdentity (default "" pid) false name;;
    mret (Some (default "" pid))
  else
    match u with
    | Some usr =>
        hostName ← host_name_of usr;
        let data := {| create_meeting_id := meeting_id m; create_name := hostName;
                       preferred_language := "en"; is_registered := Some true |} in
        participant ← call (JoinMeeting data) (λ past, joinMeeting past data);
        setIdentity (participant_id participant) true hostName;;
        mret (Some (participant_id participant))
    | None =>
        setError "Please log in to start a meeting";;
        mret None
    end.

End WithBackend.
End Room.

(** ** The route guard *)
Module Middleware.

Definition PROTECTED_PATHS : list string := ["/dashboard"].
Definition AUTH_PATHS : list string := ["/login"; "/signup"].

(** What the guard answers: [NextResponse.next()], or a redirect to a path
    of the same origin with its search parameters. *)
Inductive NextResponse : Type :=
| next
| redirect (pathname : string) (searchParams : list (string * string)).

(** [middleware(request)], on the request's [nextUrl.pathname] and the
    value of its [relay_token] cookie, if it carries one. *)
Definition middleware (pathname : string) (token : option string) : NextResponse :=
  let isProtected := existsb (λ p, String.prefix p pathname) PROTECTED_PATHS in
  let isAuthPage := existsb (λ p, String.prefix p pathname) AUTH_PATHS in
  if isProtected && negb (truthy token)
  then redirect "/login" [("redirect", pathname)]
  else if isAuthPage && truthy token
  then redirect "/dashboard" []
  else next.

End Middleware.

(** ** The join page *)
Module Join.

Inductive Step : Type := code_step | name_step | joining.

(** The page's [useState] cells, the page's [localStorage], the calls made
    and the routes pushed. *)
Record JoinState : Type := {
  step : Step;
  code : string;
  meeting : option Room.Meeting;
  name : string;
  preferredLanguage : string;
  error : option string;
  loading : bool;
  storage : gmap string string;
  calls : list Room.ApiCall;
  pushed : list string;
}.

Section WithBackend.
Context `{Platform} `{Room.Backend}.
Variable builtin : Exn → string.

Definition call {A} (c : Room.ApiCall) (answer : list Room.ApiCall → Completion A)
    : M JoinState A := λ s,
  (answer (calls s),
   {| step := step s; code := code s; meeting := meeting s; name := name s;
      preferredLanguage := preferredLanguage s; error := error s;
      loading := loading s; storage := storage s; calls := calls s ++ [c];
      pushed := pushed s |}).

Definition setError (e : option string) : M JoinState () :=
  modify (λ s,
    {| step := step s; code := code s; meeting := meeting s; name := name s;
       preferredLanguage := preferredLanguage s; error := e;
       loading := loading s; storage := storage s; calls := calls s;
       pushed := pushed s |}).

Definition setLoading (b : bool) : M JoinState () :=
  modify (λ s,
    {| step := step s; code := code s; meeting := meeting s; name := name s;
       preferredLanguage := preferredLanguage s; error := error s;
       loading := b; storage := storage s; calls := calls s;
       pushed := pushed s |}).

(** [setMeeting(m); setStep("name")] *)
Definition found (m : Room.Meeting) : M JoinState () :=
  modify (λ s,
    {| step := name_step; code := code s; meeting := Some m; name := name s;
       preferredLanguage := preferredLanguage s; error := error s;
       loading := loading s; storage := storage s; calls := calls s;
       pushed := pushed s |}).

(** [window.localStorage.setItem(key, value)] in the page. *)
Definition storage_setItem (key value : string) : M JoinState () := λ s,
  match set_item key value (storage s) with
  | Return store =>
      (Return (),
       {| step := step s; code := code s; meeting := meeting s; name := name s;
          preferredLanguage := preferredLanguage s; error := error s;
          loading := loading s; storage := store; calls := calls s;
          pushed := pushed s |})
  | Throw e => (Throw e, s)
  end.

(** The inner [try] of [handleJoin]: the name, then the language, are
    written to the storage; a write that throws ends the block and is
    ignored. *)
Definition remember : M JoinState () :=
  try_catch
    (n ← gets name;
     storage_setItem "relay_participant_name" n;;
     l ← gets preferredLanguage;
     storage_setItem "relay_participant_language" l)
    (λ _, skip).

Definition router_push (route : string) : M JoinState () :=
  modify (λ s,
    {| step := step s; code := code s; meeting := meeting s; name := name s;
       preferredLanguage := preferredLanguage s; error := error s;
       loading := loading s; storage := storage s; calls := calls s;
       pushed := pushed s ++ [route] |}).

Definition handleLookup : M JoinState () :=
  setError None;;
  setLoading true;;
  finally
    (try_catch
       (c ← gets code;
        m ← call (Room.GetMeetingByCode c) (λ past, Room.getMeetingByCode past c);
        found m)
       (λ err, setError (Some (default "Meeting not found" (message builtin err)))))
    (setLoading false).

Definition handleJoin : M JoinState () :=
  current ← gets meeting;
  match (current : option Room.Meeting) with
  | None => skip
  | Some m =>
      setError None;;
      setLoading true;;
      finally
        (try_catch
           (remember;;
            data ← gets (λ s, {| Room.create_meeting_id := Room.meeting_id m;
                                 Room.create_name := name s;
                                 Room.preferred_language := preferredLanguage s;
                                 Room.is_registered := None |});
            participant ← call (Room.JoinMeeting data)
                               (λ past, Room.joinMeeting past data);
            router_push ("/room/" +:+ Room.code m +:+ "?participantId="
                         +:+ Room.participant_id participant))
           (λ err, setError (Some (default "Failed to join meeting"
                                     (message builtin err)))))
        (setLoading false)
  end.

End WithBackend.
End Join.

(** ** The dashboard *)
Module Dashboard.

(** The provider's state, the cells [loadMeetings] writes, and the routes
    pushed. *)
Record DashboardState : Type := {
  auth : Auth.AuthState;
  meetings : JsValue;
  loading : bool;
  error : option string;
  isRedirecting : bool;
  pushed : list string;
}.

(** On mount: [useState([])], [useState(true)], no error, not redirecting. *)
Definition mounted (a : Auth.AuthState) : DashboardState :=
  {| auth := a; meetings := VJson (JArr []); loading := true; error := None;
     isRedirecting := false; pushed := [] |}.

Section WithPlatform.
Context `{Platform}.
Variable builtin : Exn → string.

Definition in_auth {A} (m : M Auth.AuthState A) : M DashboardState A := λ s,
  match m (auth s) with
  | (c, a') => (c, {| auth := a'; meetings := meetings s; loading := loading s;
                      error := error s; isRedirecting := isRedirecting s;
                      pushed := pushed s |})
  end.

Definition setMeetings (data : JsValue) : M DashboardState () :=
  modify (λ s, {| auth := auth s; meetings := data; loading := loading s;
                  error := error s; isRedirecting := isRedirecting s;
                  pushed := pushed s |}).

Definition setLoading (b : bool) : M DashboardState () :=
  modify (λ s, {| auth := auth s; meetings := meetings s; loading := b;
                  error := error s; isRedirecting := isRedirecting s;
                  pushed := pushed s |}).

Definition setError (e : string) : M DashboardState () :=
  modify (λ s, {| auth := auth s; meetings := meetings s; loading := loading s;
                  error := Some e; isRedirecting := isRedirecting s;
                  pushed := pushed s |}).

Definition setIsRedirecting (b : bool) : M DashboardState () :=
  modify (λ s, {| auth := auth s; meetings := meetings s; loading := loading s;
                  error := error s; isRedirecting := b; pushed := pushed s |}).

Definition router_push (route : string) : M DashboardState () :=
  modify (λ s, {| auth := auth s; meetings := meetings s; loading := loading s;
                  error := error s; isRedirecting := isRedirecting s;
                  pushed := pushed s ++ [route] |}).

(** [loadMeetings]: the result says whether the function ran to its last
    statement, [setLoading(false)], or returned from the [catch]. *)
Definition loadMeetings : M DashboardState () :=
  finished ←
    try_catch
      (data ← in_auth (Auth.in_net Api.listMeetings);
       setMeetings data;;
       mret true)
      (λ err,
         let errorMessage := default (reason_of err) (message builtin err) in
         if includes errorMessage "401" || includes errorMessage "Unauthorized"
         then
           setIsRedirecting true;;
           in_auth Auth.logout;;
           router_push "/login";;
           mret false
         else
           setError (default "Failed to load sessions" (message builtin err));;
           mret true);
  if (finished : bool) then setLoading false else skip.

End WithPlatform.
End Dashboard.

(** ** Fixtures for closed examples *)
Module Fixtures.

(** A parser for the three JSON literals; every other text is refused, as
    [JSON.parse] refuses the texts the examples feed it. *)
Definition parse_literal (text : string) : Completion JSON :=
  if String.eqb text "null" then Return JNull
  else if String.eqb text "true" then Return (JBool true)
  else if String.eqb text "false" then Return (JBool false)
  else Throw SyntaxError.

(** A serialiser for values whose strings need no escape. *)
Definition quoted (s : string) : string :=
  String (Ascii.ascii_of_nat 34) (s +:+ String (Ascii.ascii_of_nat 34) "").

Fixpoint stringify (v : JSON) : string :=
  match v with
  | JNull => "null"
  | JBool true => "true"
  | JBool false => "false"
  | JNum lit => lit
  | JStr s => quoted s
  | JArr items => "[" +:+ String.concat "," (List.map stringify items) +:+ "]"
  | JObj fields =>
      "{" +:+ String.concat ","
                (List.map (λ kv, match kv with
                                 | (k, x) => quoted k +:+ ":" +:+ stringify x
                                 end) fields) +:+ "}"
  end.

(** A platform whose server answers every request with [answer]. *)
Definition server (answer : Completion Response) : Platform :=
  {| NEXT_PUBLIC_API_URL := None;
     JSON_stringify := stringify;
     JSON_parse := parse_literal;
     encodeURIComponent := λ s, Return s;
     setItem := λ _ _ _, Return ();
     fetch := λ _ _, answer |}.

(** A page at one second past the epoch with nothing stored. *)
Definition blank_window : Window :=
  {| localStorage := ∅; cookie_jar := ∅; Date_now := 1000 |}.

Definition in_page (w : Window) : Net := {| window := Some w; requests := [] |}.

(** The page after the two persisting statements of [login]:
    [setToken(token); setCookie("relay_token", token)]. *)
Definition logged_in `{Platform} (token : string) : Net :=
  ((Api.setToken (VJson (JStr token));;
    Auth.setCookie "relay_token" (VJson (JStr token))) (in_page blank_window)).2.

(** The server's answer to an identity fetch with a credential it rejects. *)
Definition unauthorized : Response :=
  {| status := 401;
     json := Return (JObj [("detail", JStr "Could not validate credentials")]) |}.

(** The window of [logged_in token], for an encoder that keeps the token. *)
Definition holding (token : string) : Window :=
  {| localStorage := {[Api.TOKEN_KEY := token]};
     cookie_jar := {[("relay_token", "/") :=
                      {| cookie_value := token; cookie_expires := 43201000 |}]};
     Date_now := 1000 |}.

(** A platform whose server answers the gateway's login with [login] and
    every other request with [other]. *)
Definition gateway (login other : Completion Response) : Platform :=
  {| NEXT_PUBLIC_API_URL := None;
     JSON_stringify := stringify;
     JSON_parse := parse_literal;
     encodeURIComponent := λ s, Return s;
     setItem := λ _ _ _, Return ();
     fetch := λ _ r,
       if String.eqb (req_url r) "http://localhost:8000/auth/login"
       then login else other |}.

(** The gateway's answer to a login it accepts. *)
Definition token_data (token : string) : Response :=
  {| status := 200;
     json := Return (JObj [("access_token", JStr token);
                           ("token_type", JStr "bearer")]) |}.

(** The server's answer to a registration with an email it knows. *)
Definition taken : Response :=
  {| status := 400; json := Return (JObj [("detail", JStr "Email already registered")]) |}.

(** The texts of the built-in errors, by their names. *)
Definition builtin (e : Exn) : string :=
  match e with
  | TypeError => "TypeError"
  | SyntaxError => "SyntaxError"
  | ReferenceError => "ReferenceError"
  | _ => ""
  end.

(** A client whose two callbacks return normally. *)
Definition quiet_client `{Platform} : Websocket.RelayWebSocket :=
  Websocket.new "m1" "p1" (λ _, Return ()) (λ _, Return ()).

(** A server with one meeting, one company and room for a participant. *)
Definition backend : Room.Backend :=
  {| Room.getMeetingByCode := λ _ c,
       Return {| Room.meeting_id := "m-1"; Room.code := c;
                 Room.title := "Weekly"; Room.host_name := Some "Acme" |};
     Room.listParticipants := λ _ _, Return [];
     Room.getMyCompany := λ _,
       Return {| Room.company_id := "c-1"; Room.company_name := "Acme";
                 Room.company_email := "a@b.com"; Room.is_active := true |};
     Room.joinMeeting := λ _ data,
       Return {| Room.participant_id := "p-1";
                 Room.participant_name := Room.create_name data |} |}.

(** A server that knows no meeting. *)
Definition no_meeting : Room.Backend :=
  {| Room.getMeetingByCode := λ _ _, Throw (Error "Meeting not found");
     Room.listParticipants := λ _ _, Return [];
     Room.getMyCompany := Room.getMyCompany (Backend := backend);
     Room.joinMeeting := Room.joinMeeting (Backend := backend) |}.

(** The join page with a meeting looked up and a name typed. *)
Definition weekly : Room.Meeting :=
  {| Room.meeting_id := "m-1"; Room.code := "ABC123";
     Room.title := "Weekly"; Room.host_name := Some "Acme" |}.

Definition named (n : string) : Join.JoinState :=
  {| Join.step := Join.name_step; Join.code := "ABC123";
     Join.meeting := Some weekly; Join.name := n;
     Join.preferredLanguage := "fr"; Join.error := None; Join.loading := false;
     Join.storage := ∅; Join.calls := []; Join.pushed := [] |}.

End Fixtures.

(** * Theorems *)

(** Unfolds the statement combinators down to functions on stores. *)
Ltac unfold_m :=
  unfold mbind, M_bind, mret, M_ret, skip, gets, modify, lift, throw,
    try_catch, finally in *.

(** ** lib/api *)
Section ApiFacts.
Context `{Platform}.

(** Building the request reads the store and never writes it or throws. *)
Lemma request_returns path options n :
  ∃ req, Api.request path options n = (Return req, n).
Proof.
  unfold Api.request, Api.getToken. unfold_m.
  destruct (default true (Api.auth options)); [|eauto].
  destruct (window n) as [w|]; cbn; [|eauto].
  destruct (truthy (localStorage w !! Api.TOKEN_KEY)); eauto.
Qed.

(** [apiFetch] is its request, the network's answer, and the settling. *)
Lemma apiFetch_unfold path options n req :
  Api.request path options n = (Return req, n) →
  Api.apiFetch path options n =
    match fetch (requests n) req with
    | Return r => Api.settle r {| window := window n; requests := requests n ++ [req] |}
    | Throw e => (Throw e, {| window := window n; requests := requests n ++ [req] |})
    end.
Proof.
  intros Hreq. unfold Api.apiFetch. unfold_m. rewrite Hreq.
  unfold Api.do_fetch. destruct (fetch (requests n) req); reflexivity.
Qed.

(** Settling a response leaves the store as it is. *)
Lemma settle_store r n : (Api.settle r n).2 = n.
Proof.
  unfold Api.settle, Api.error_detail. unfold_m.
  destruct (negb (ok r)).
  - destruct (json r) as [v|e]; cbn; [|reflexivity].
    destruct (get_property v "detail"); cbn; [|reflexivity].
    now destruct (to_string_json _).
  - destruct (status r =? 204)%Z; [reflexivity|].
    destruct (json r); reflexivity.
Qed.

(** A call of [apiFetch] adds one request to the store and changes nothing
    else of it. *)
Lemma apiFetch_store path options n :
  ∃ c req,
    Api.apiFetch path options n =
      (c, {| window := window n; requests := requests n ++ [req] |}).
Proof.
  destruct (request_returns path options n) as [req Hreq].
  rewrite (apiFetch_unfold _ _ _ _ Hreq).
  destruct (fetch (requests n) req) as [r|e]; [|eauto].
  set (n' := {| window := window n; requests := requests n ++ [req] |}).
  pose proof (settle_store r n') as Hstore.
  destruct (Api.settle r n') as [c m]. cbn in Hstore. subst m. eauto.
Qed.

(** A call with [auth: false] sends the caller's headers and the content
    type, whatever the durable store holds. *)
Lemma auth_false_sends_no_credential path options n :
  Api.auth options = Some false →
  ∃ req,
    Api.request path options n = (Return req, n) ∧
    req_headers req =
      default ∅ (Api.init_headers options) ∪ {["Content-Type" := "application/json"]}.
Proof.
  intros Hauth. unfold Api.request. unfold_m. rewrite Hauth. cbn. eauto.
Qed.

(** The three in-meeting endpoints send the content type and nothing else,
    also from a page that holds a credential. *)
Lemma in_meeting_endpoints_omit_credential (n : Net) (code meetingId : string)
    (data : JSON) :
  let plain := [{["Content-Type" := "application/json"]}] in
  req_headers <$> drop (length (requests n))
                    (requests (Api.getMeetingByCode code n).2) = plain ∧
  req_headers <$> drop (length (requests n))
                    (requests (Api.listParticipants meetingId n).2) = plain ∧
  req_headers <$> drop (length (requests n))
                    (requests (Api.joinMeeting data n).2) = plain.
Proof.
  assert (Hone : ∀ path options, Api.auth options = Some false →
            Api.init_headers options = None →
            req_headers <$> drop (length (requests n))
                              (requests (Api.apiFetch path options n).2) =
            [{["Content-Type" := "application/json"]}]).
  { intros path options Hauth Hnone.
    destruct (auth_false_sends_no_credential path options n Hauth)
      as (req & Hreq & Hheaders).
    rewrite (apiFetch_unfold _ _ _ _ Hreq).
    assert (Hsent : ∀ c : Completion Response,
              requests (match c with
                        | Return r =>
                            Api.settle r {| window := window n;
                                            requests := requests n ++ [req] |}
                        | Throw e =>
                            (Throw e, {| window := window n;
                                         requests := requests n ++ [req] |})
                        end).2 = requests n ++ [req]).
    { intros [r|e]; [now rewrite settle_store | reflexivity]. }
    rewrite Hsent, drop_app_length. cbn. rewrite Hheaders, Hnone. cbn.
    now rewrite (left_id_L ∅ (∪)). }
  cbv zeta. repeat split; now apply Hone.
Qed.

(** C10: with no [window] (no browser), [getToken] returns [null] and
    leaves the store alone, and the request [apiFetch] makes, whatever
    [auth] says, carries the caller's headers and the content type and
    nothing else: no [Authorization] header is attached. *)
Theorem no_window_no_credential path options n :
  window n = None →
  Api.getToken n = (Return None, n) ∧
  ∃ req,
    Api.request path options n = (Return req, n) ∧
    req_headers req =
      default ∅ (Api.init_headers options) ∪ {["Content-Type" := "application/json"]} ∧
    req_headers req !! "Authorization" =
      default ∅ (Api.init_headers options) !! "Authorization" ∧
    requests (Api.apiFetch path options n).2 = requests n ++ [req].
Proof.
  intros Hw.
  assert (Htok : Api.getToken n = (Return None, n)).
  { unfold Api.getToken. now rewrite Hw. }
  split; [exact Htok|].
  destruct (request_returns path options n) as [req Hreq].
  assert (Hheaders : req_headers req =
            default ∅ (Api.init_headers options)
            ∪ {["Content-Type" := "application/json"]}).
  { revert Hreq. unfold Api.request. unfold_m.
    destruct (default true (Api.auth options)).
    - rewrite Htok. cbn. intros [= <-]. reflexivity.
    - intros [= <-]. reflexivity. }
  exists req. split; [exact Hreq|]. split; [exact Hheaders|]. split.
  - rewrite Hheaders, lookup_union_l; [reflexivity|].
    now apply lookup_singleton_ne.
  - rewrite (apiFetch_unfold _ _ _ _ Hreq).
    destruct (fetch (requests n) req) as [r|e]; [|reflexivity].
    now rewrite settle_store.
Qed.


End ApiFacts.

(** ** lib/auth *)
Section AuthFacts.

(** C7: in a page (whose clock is past the epoch), [logout] returns
    normally in one synchronous step; afterwards the durable store and the
    cookie hold no credential, the published identity is [null], and the
    list of requests made is the one before: no server call. *)
Theorem logout_clears_credential (s : Auth.AuthState) (w : Window) :
  window (Auth.net s) = Some w →
  0 < Date_now w →
  ∃ s',
    Auth.logout s = (Return (), s') ∧
    Auth.stored_token s' = None ∧
    Auth.cookie_token s' = None ∧
    Auth.user s' = VJson JNull ∧
    Auth.isAuthenticated s' = false ∧
    requests (Auth.net s') = requests (Auth.net s).
Proof.
  intros Hw Hnow.
  unfold Auth.logout, Auth.in_net, Api.clearToken, Auth.deleteCookie,
    Auth.setUser, with_window. unfold_m.
  rewrite Hw. cbn. eexists. split; [reflexivity|].
  unfold Auth.stored_token, Auth.cookie_token, Auth.isAuthenticated,
    Auth.assign_cookie. cbn.
  assert (Hpast : (0 <=? Date_now w)%Z = true) by (apply Z.leb_le; lia).
  rewrite Hpast.
  repeat split.
  - apply lookup_delete_eq.
  - now rewrite lookup_delete_eq.
Qed.

Context `{Platform}.

(** [restore] never writes the cookie jar: whatever the identity fetch
    does, the cookie the page had is the cookie it keeps. *)
Lemma restore_keeps_cookie_jar (s : Auth.AuthState) :
  cookie_jar <$> window (Auth.net (Auth.restore s).2) =
  cookie_jar <$> window (Auth.net s).
Proof.
  destruct s as [[win reqs] u l].
  destruct (apiFetch_store "/auth/me" Api.no_options
              {| window := win; requests := reqs |}) as (c & req & Hme).
  unfold Auth.restore, Auth.in_net, Api.getMe, Api.getToken, Auth.setIsLoading,
    Auth.setUser, Api.clearToken, with_window. unfold_m.
  cbn -[Api.apiFetch].
  destruct win as [w|]; cbn -[Api.apiFetch]; [|reflexivity].
  destruct (truthy (localStorage w !! Api.TOKEN_KEY)); cbn -[Api.apiFetch];
    [|reflexivity].
  rewrite Hme. destruct c; reflexivity.
Qed.

(** In every case [restore] ends the initial loading state. *)
Lemma restore_ends_loading (s : Auth.AuthState) :
  Auth.isLoading (Auth.restore s).2 = false.
Proof.
  destruct s as [[win reqs] u l].
  destruct (apiFetch_store "/auth/me" Api.no_options
              {| window := win; requests := reqs |}) as (c & req & Hme).
  unfold Auth.restore, Auth.in_net, Api.getMe, Api.getToken, Auth.setIsLoading,
    Auth.setUser, Api.clearToken, with_window. unfold_m.
  cbn -[Api.apiFetch].
  destruct win as [w|]; cbn -[Api.apiFetch]; [|reflexivity].
  destruct (truthy (localStorage w !! Api.TOKEN_KEY)); cbn -[Api.apiFetch];
    [|reflexivity].
  rewrite Hme. destruct c; reflexivity.
Qed.

(** With a credential in the durable store and a failing identity fetch,
    [restore] removes the credential from the durable store and publishes
    no identity; the cookie keeps what it held. *)
Lemma restore_failure_clears_store (s : Auth.AuthState) (e : Exn) :
  truthy (Auth.stored_token s) = true →
  (Api.getMe (Auth.net s)).1 = Throw e →
  Auth.stored_token (Auth.restore s).2 = None ∧
  Auth.user (Auth.restore s).2 = Auth.user s ∧
  Auth.cookie_token (Auth.restore s).2 = Auth.cookie_token s.
Proof.
  destruct s as [[win reqs] u l].
  destruct (apiFetch_store "/auth/me" Api.no_options
              {| window := win; requests := reqs |}) as (c & req & Hme).
  unfold Auth.restore, Auth.stored_token, Auth.cookie_token, Auth.in_net,
    Api.getMe, Api.getToken, Auth.setIsLoading, Auth.setUser, Api.clearToken,
    with_window. unfold_m.
  cbn -[Api.apiFetch]. intros Htok.
  destruct win as [w|]; cbn -[Api.apiFetch] in *; [|discriminate Htok].
  rewrite Htok. cbn -[Api.apiFetch]. rewrite Hme. cbn. intros ->. cbn.
  repeat split. apply lookup_delete_eq.
Qed.

End AuthFacts.

(** C6, at a page that holds the credential in both surfaces and a server
    that rejects it: [restore] ends the loading state, publishes no
    identity and empties the durable store, and the cookie still holds the
    credential. *)
Lemma restore_failure_leaves_cookie :
  let P := Fixtures.server (Return Fixtures.unauthorized) in
  let s := Auth.mounted (Fixtures.logged_in "tok") in
  Auth.stored_token s = Some "tok" ∧
  Auth.cookie_token s = Some "tok" ∧
  (Auth.restore s).1 = Return () ∧
  Auth.isLoading (Auth.restore s).2 = false ∧
  Auth.user (Auth.restore s).2 = VJson JNull ∧
  Auth.stored_token (Auth.restore s).2 = None ∧
  Auth.cookie_token (Auth.restore s).2 = Some "tok".
Proof. vm_compute. repeat split. Qed.

(** The sibling path: from the same page [logout] empties both surfaces. *)
Lemma logout_witness :
  let P := Fixtures.server (Return Fixtures.unauthorized) in
  let s := Auth.mounted (Fixtures.logged_in "tok") in
  (window (Auth.net s) = Some
     {| localStorage := {[Api.TOKEN_KEY := "tok"]};
        cookie_jar := {[("relay_token", "/") :=
                         {| cookie_value := "tok"; cookie_expires := 43201000 |}]};
        Date_now := 1000 |} ∧ 0 < 1000) ∧
  ∃ s',
    Auth.logout s = (Return (), s') ∧
    Auth.stored_token s' = None ∧
    Auth.cookie_token s' = None ∧
    Auth.user s' = VJson JNull ∧
    Auth.isAuthenticated s' = false ∧
    requests (Auth.net s') = requests (Auth.net s).
Proof.
  cbv zeta. split.
  - split; [vm_compute; reflexivity | lia].
  - apply (logout_clears_credential _
             {| localStorage := {[Api.TOKEN_KEY := "tok"]};
                cookie_jar := {[("relay_token", "/") :=
                                 {| cookie_value := "tok"; cookie_expires := 43201000 |}]};
                Date_now := 1000 |}); [vm_compute; reflexivity | reflexivity].
Defined.

(** ** Closed examples for lib/api *)



(** A detail that is no string reaches the caller as its string
    conversion only: a list of validation entries gives the text of its
    join, and an entry that owns a [toString] property gives a
    [TypeError]. *)
Lemma apiFetch_structured_details :
  let n := Fixtures.in_page Fixtures.blank_window in
  let answer detail := Return {| status := 422;
                                 json := Return (JObj [("detail", detail)]) |} in
  (@Api.apiFetch (Fixtures.server
                    (answer (JArr [JObj [("msg", JStr "field required")];
                                   JNull; JNum "1"])))
     "/auth/me" Api.no_options n).1 = Throw (Error "[object Object],,1") ∧
  (@Api.apiFetch (Fixtures.server (answer (JObj [("toString", JStr "x")])))
     "/auth/me" Api.no_options n).1 = Throw TypeError.
Proof. vm_compute. split; reflexivity. Qed.

(** [no_window_no_credential] on the server's side of the application, with
    [auth] left at its default: the one request made carries the content
    type alone. *)
Lemma no_window_no_credential_witness :
  let P := Fixtures.server (Return Fixtures.unauthorized) in
  let n := {| window := None; requests := [] |} in
  window n = None ∧
  Api.getToken n = (Return None, n) ∧
  req_headers <$> requests (Api.apiFetch "/auth/me" Api.no_options n).2 =
    [{["Content-Type" := "application/json"]}].
Proof.
  cbv zeta. split; [reflexivity|].
  destruct (@no_window_no_credential (Fixtures.server (Return Fixtures.unauthorized))
              "/auth/me" Api.no_options {| window := None; requests := [] |} eq_refl)
    as (Htok & req & _ & Hheaders & _ & Hsent).
  split; [exact Htok|].
  rewrite Hsent. cbn. now rewrite Hheaders.
Defined.

(** ** lib/websocket *)
Section WebsocketFacts.
Import Websocket.
Context `{Platform}.

(** *** Sending *)

(** C4: whenever the client's transport is not open (none yet or none any
    more, connecting, closing or closed), [sendAudioChunk] and [sendText]
    return without touching the world: no transport call is recorded and
    the data is kept nowhere, so nothing can deliver it later. *)
Theorem send_while_not_open (w : World) (chunk : list Byte.byte) (text : string) :
  isConnected w = false →
  sendAudioChunk chunk w = (Return (), w) ∧
  sendText text w = (Return (), w).
Proof.
  intros Hclosed. unfold sendAudioChunk, sendText. unfold_m.
  now rewrite Hclosed.
Qed.

(** On an open transport the payload goes out at once, in one [send]. *)
Lemma send_while_open (w : World) (chunk : list Byte.byte) (id : nat) :
  isConnected w = true →
  ws (this w) = Some id →
  sendAudioChunk chunk w = (Return (), emit (Send id (Binary chunk)) w).
Proof.
  intros Hopen Hid. unfold sendAudioChunk, ws_send. unfold_m.
  now rewrite Hopen, Hid.
Qed.

(** *** Inbound messages *)

(** The message handler returns normally on every payload: a parse failure
    and an exception of the transcript callback both end in the [catch]. *)
Lemma onmessage_returns (data : string) (w : World) :
  (onmessage data w).1 = Return ().
Proof.
  unfold onmessage, call_onTranscript. unfold_m.
  destruct (JSON_parse data) as [v|e]; cbn; [|reflexivity].
  destruct (onTranscript (this w) v) as [[]|e]; reflexivity.
Qed.

(** C5: for a payload that [JSON.parse] refuses, the message handler
    returns normally and the world after it is the world before: the
    transcript callback is not called, no status is reported, nothing is
    recorded as uncaught, whatever transport the message came on. *)
Theorem malformed_frame_dropped (data : string) (e : Exn) (w : World) (id : nat) :
  JSON_parse data = Throw e →
  onmessage data w = (Return (), w) ∧
  deliver (Message id data) w = w.
Proof.
  intros Hbad.
  assert (Hm : onmessage data w = (Return (), w)).
  { unfold onmessage. unfold_m. now rewrite Hbad. }
  split; [exact Hm|].
  unfold deliver, task. rewrite Hm. now destruct (enabled _ _).
Qed.

(** *** After [disconnect] *)

Lemma scheduled_emit (e : Effect) (w : World) :
  scheduled (emit e w) =
  scheduled w ++ match e with SetTimeout _ _ => [e] | _ => [] end.
Proof.
  unfold scheduled, emit. cbn. rewrite List.filter_app. cbn. now destruct e.
Qed.

Lemma quiet_ret {A} (a : A) : quiet (mret a).
Proof. intros w Hoff. cbn. auto. Qed.

Lemma quiet_bind {A B} (m : M World A) (f : A → M World B) :
  quiet m → (∀ a, quiet (f a)) → quiet (m ≫= f).
Proof.
  intros Hm Hf w Hoff. unfold mbind, M_bind.
  specialize (Hm w Hoff). destruct (m w) as [[a|e] w1]; cbn in *; [|exact Hm].
  destruct Hm as (Hoff1 & Hsched1 & Htimers1).
  destruct (Hf a w1 Hoff1) as (Hoff2 & Hsched2 & Htimers2).
  split; [exact Hoff2|]. split; [congruence|]. now transitivity (timers w1).
Qed.

Lemma quiet_try_catch {A} (m : M World A) (h : Exn → M World A) :
  quiet m → (∀ e, quiet (h e)) → quiet (try_catch m h).
Proof.
  intros Hm Hh w Hoff. unfold try_catch.
  specialize (Hm w Hoff). destruct (m w) as [[a|e] w1]; cbn in *; [exact Hm|].
  destruct Hm as (Hoff1 & Hsched1 & Htimers1).
  destruct (Hh e w1 Hoff1) as (Hoff2 & Hsched2 & Htimers2).
  split; [exact Hoff2|]. split; [congruence|]. now transitivity (timers w1).
Qed.

Lemma quiet_gets {A} (f : World → A) : quiet (gets f).
Proof. intros w Hoff. cbn. auto. Qed.

Lemma quiet_lift {A} (c : Completion A) : quiet (lift c).
Proof. intros w Hoff. cbn. auto. Qed.

Lemma quiet_emit {A} (e : Effect) (c : World → Completion A) :
  match e with SetTimeout _ _ => False | _ => True end →
  quiet (λ w, (c w, emit e w)).
Proof.
  intros He w Hoff. cbn [snd]. rewrite scheduled_emit.
  destruct e; try contradiction; rewrite app_nil_r; auto.
Qed.

Lemma quiet_call_onStatus (s : Status) : quiet (call_onStatus s).
Proof. now apply (quiet_emit (CallStatus s)). Qed.

Lemma quiet_call_onTranscript (data : JSON) : quiet (call_onTranscript data).
Proof. now apply (quiet_emit (CallTranscript data)). Qed.

Lemma quiet_connect : quiet connect.
Proof.
  unfold connect. apply quiet_bind; [apply quiet_gets|].
  intros [|]; [apply quiet_ret|].
  apply quiet_bind; [apply quiet_gets|]. intros address.
  apply quiet_bind; [apply quiet_call_onStatus|]. intros _.
  intros w Hoff. unfold new_WebSocket, modify, scheduled. cbn.
  rewrite List.filter_app. cbn. rewrite app_nil_r. auto.
Qed.

Lemma quiet_onmessage (data : string) : quiet (onmessage data).
Proof.
  unfold onmessage. apply quiet_try_catch.
  - apply quiet_bind; [apply quiet_lift|]. intros v. apply quiet_call_onTranscript.
  - intros _. apply quiet_ret.
Qed.

(** With reconnection disabled, a close reports its status and schedules
    nothing. *)
Lemma quiet_onclose : quiet onclose.
Proof.
  unfold onclose. apply quiet_bind; [apply quiet_call_onStatus|]. intros _.
  intros w Hoff. unfold_m. unfold off in Hoff. rewrite Hoff. cbn. auto.
Qed.

Lemma quiet_send (p : Payload) : quiet (ws_send p).
Proof.
  intros w Hoff. unfold ws_send, modify. cbn [snd].
  destruct (ws (this w)) as [id|]; [|auto].
  rewrite scheduled_emit, app_nil_r. auto.
Qed.

Lemma quiet_sendAudioChunk (chunk : list Byte.byte) : quiet (sendAudioChunk chunk).
Proof.
  unfold sendAudioChunk. apply quiet_bind; [apply quiet_gets|].
  intros [|]; [apply quiet_send | apply quiet_ret].
Qed.

Lemma quiet_sendText (text : string) : quiet (sendText text).
Proof.
  unfold sendText. apply quiet_bind; [apply quiet_gets|].
  intros [|]; [apply quiet_send | apply quiet_ret].
Qed.

(** [disconnect] returns normally, disables reconnection whatever the flag
    was, schedules nothing and only removes from the pending timeouts. *)
Lemma close_current_core (w : World) :
  this (close_current w) = this w ∧ timers (close_current w) = timers w ∧
  scheduled (close_current w) = scheduled w ∧
  attempts (close_current w) = attempts w.
Proof.
  unfold close_current. destruct (ws (this w)) as [id|]; [|auto].
  destruct (is_live (state_of w id)); unfold scheduled, attempts; cbn;
    rewrite !List.filter_app; cbn; rewrite !app_nil_r; auto.
Qed.

Lemma disconnect_effect (w : World) :
  (disconnect w).1 = Return () ∧
  off (disconnect w).2 ∧
  scheduled (disconnect w).2 = scheduled w ∧
  timers (disconnect w).2 ⊆ timers w.
Proof.
  unfold disconnect, ws_close, clearTimeout, off. unfold_m.
  cbn -[close_current].
  destruct (reconnectTimer (this w)) as [h|]; cbn -[close_current];
    match goal with |- context [close_current ?x] => set (w1 := x) end;
    destruct (close_current_core w1) as (Hthis & Htimers & Hsched & _);
    rewrite Hthis, Htimers; unfold scheduled in *; cbn [trace set_this];
    rewrite Hsched; subst w1; cbn;
    rewrite ?List.filter_app; cbn; rewrite ?app_nil_r;
    repeat split; try reflexivity; apply delete_subseteq.
Qed.

Lemma quiet_disconnect : quiet disconnect.
Proof.
  intros w _. destruct (disconnect_effect w) as (_ & ? & ? & ?). auto.
Qed.

Lemma quiet_step (a : Action) (w : World) :
  off w →
  off (step a w) ∧ scheduled (step a w) = scheduled w ∧ timers (step a w) ⊆ timers w.
Proof.
  assert (Htask : ∀ (m : M World ()) (w1 : World), quiet m → off w1 →
            off (task m w1) ∧ scheduled (task m w1) = scheduled w1 ∧
            timers (task m w1) ⊆ timers w1).
  { intros m w1 Hm Hoff1. unfold task. specialize (Hm w1 Hoff1).
    destruct (m w1) as [[[]|e] w2]; cbn in Hm; [exact Hm|].
    rewrite scheduled_emit, app_nil_r. exact Hm. }
  intros Hoff. destruct a as [| chunk | text | | e]; cbn [step].
  - now apply quiet_connect.
  - now apply quiet_sendAudioChunk.
  - now apply quiet_sendText.
  - now apply quiet_disconnect.
  - unfold deliver. destruct (enabled e w); [|auto].
    destruct e as [id | id data | id | id | h].
    + apply (Htask onopen (set_readyState id OPEN w)); [apply quiet_call_onStatus | exact Hoff].
    + apply Htask; [apply quiet_onmessage | exact Hoff].
    + apply Htask; [apply quiet_call_onStatus | exact Hoff].
    + apply (Htask onclose (set_readyState id CLOSED w)); [apply quiet_onclose | exact Hoff].
    + destruct (Htask connect (remove_timer h w) quiet_connect Hoff) as (? & ? & Hsub).
      split; [assumption|]. split; [assumption|].
      transitivity (timers (remove_timer h w)); [exact Hsub | apply delete_subseteq].
Qed.

(** C9: [disconnect] returns with reconnection disabled, and after it,
    through every sequence of calls of the public methods ([connect]
    included) and of events of the browser (closes of later transports
    included), reconnection stays disabled, not one timeout is scheduled,
    and no timeout is pending that was not pending already. *)
Theorem disconnect_is_final (w : World) (actions : list Action) :
  (disconnect w).1 = Return () ∧
  shouldReconnect (this (run actions (disconnect w).2)) = false ∧
  scheduled (run actions (disconnect w).2) = scheduled w ∧
  timers (run actions (disconnect w).2) ⊆ timers w.
Proof.
  destruct (disconnect_effect w) as (Hret & Hoff & Hsched & Htimers).
  split; [exact Hret|].
  revert Hoff Hsched Htimers. generalize (disconnect w).2 as w0.
  unfold run. induction actions as [|a actions IH]; intros w0 Hoff Hsched Htimers.
  - cbn. auto.
  - cbn [foldl]. destruct (quiet_step a w0 Hoff) as (Hoff1 & Hsched1 & Htimers1).
    apply IH; [exact Hoff1 | congruence | now transitivity (timers w0)].
Qed.

(** *** Connecting and reconnecting *)

(** With reconnection enabled and a status callback that returns, the close
    of a transport reports the status and schedules exactly one timeout, of
    3000 ms, whose handle the client keeps. *)
Lemma close_schedules_one_reconnect (w : World) (id : nat) :
  shouldReconnect (this w) = true →
  enabled (Closed id) w = true →
  onStatus (this w) closed = Return () →
  trace (deliver (Closed id) w) =
    trace w ++ [CallStatus closed; SetTimeout (next_timer w) 3000] ∧
  timers (deliver (Closed id) w) = <[next_timer w := 3000]> (timers w) ∧
  reconnectTimer (this (deliver (Closed id) w)) = Some (next_timer w).
Proof.
  intros Hon Hen Hcb. unfold deliver. rewrite Hen.
  unfold task, onclose, call_onStatus, setTimeout, set_readyState, set_this, emit.
  unfold_m. cbn. rewrite Hcb, Hon. cbn. rewrite <- app_assoc. auto.
Qed.

(** [disconnect] clears the timeout whose handle the client keeps. *)
Lemma disconnect_clears_kept_timer (w : World) (h : positive) :
  reconnectTimer (this w) = Some h →
  timers (disconnect w).2 = delete h (timers w).
Proof.
  intros Hh. unfold disconnect, clearTimeout, ws_close. unfold_m.
  cbn -[close_current]. rewrite Hh. cbn -[close_current].
  match goal with |- context [close_current ?x] => set (w1 := x) end.
  destruct (close_current_core w1) as (_ & Htimers & _). now rewrite Htimers.
Qed.

Lemma attempts_emit (e : Effect) (w : World) :
  attempts (emit e w) =
  attempts w ++ match e with NewWebSocket _ _ => [e] | _ => [] end.
Proof.
  unfold attempts, emit. cbn. rewrite List.filter_app. cbn. now destruct e.
Qed.

Lemma steady_ret {A} (a : A) : steady (mret a).
Proof. intros w. reflexivity. Qed.

Lemma steady_bind {A B} (m : M World A) (f : A → M World B) :
  steady m → (∀ a, steady (f a)) → steady (m ≫= f).
Proof.
  intros Hm Hf w. unfold mbind, M_bind. specialize (Hm w).
  destruct (m w) as [[a|e] w1]; cbn in *; [|exact Hm].
  now rewrite (Hf a w1).
Qed.

Lemma steady_try_catch {A} (m : M World A) (h : Exn → M World A) :
  steady m → (∀ e, steady (h e)) → steady (try_catch m h).
Proof.
  intros Hm Hh w. unfold try_catch. specialize (Hm w).
  destruct (m w) as [[a|e] w1]; cbn in *; [exact Hm|].
  now rewrite (Hh e w1).
Qed.

Lemma steady_emit {A} (e : Effect) (c : World → Completion A) :
  match e with NewWebSocket _ _ => False | _ => True end →
  steady (λ w, (c w, emit e w)).
Proof.
  intros He w. cbn [snd]. rewrite attempts_emit.
  destruct e; try contradiction; apply app_nil_r.
Qed.

Lemma steady_onmessage (data : string) : steady (onmessage data).
Proof.
  unfold onmessage. apply steady_try_catch; [|intros _; apply steady_ret].
  apply steady_bind; [intros w; reflexivity|]. intros v.
  now apply (steady_emit (CallTranscript v)).
Qed.

Lemma steady_onclose : steady onclose.
Proof.
  unfold onclose. apply steady_bind; [now apply (steady_emit (CallStatus closed))|].
  intros _ w. unfold setTimeout, set_this, attempts. unfold_m.
  destruct (shouldReconnect (this w)); cbn; [|reflexivity].
  rewrite List.filter_app. cbn. apply app_nil_r.
Qed.

Lemma steady_send (p : Payload) : steady (ws_send p).
Proof.
  intros w. unfold ws_send, modify. cbn [snd].
  destruct (ws (this w)) as [id|]; [|reflexivity].
  rewrite attempts_emit. apply app_nil_r.
Qed.

Lemma steady_disconnect : steady disconnect.
Proof.
  intros w. unfold disconnect, ws_close, clearTimeout. unfold_m.
  cbn -[close_current].
  destruct (reconnectTimer (this w)) as [h|]; cbn -[close_current];
    match goal with |- context [close_current ?x] => set (w1 := x) end;
    destruct (close_current_core w1) as (_ & _ & _ & Hattempts);
    unfold attempts in *; cbn [trace set_this]; rewrite Hattempts; subst w1; cbn;
    rewrite ?List.filter_app; cbn; rewrite ?app_nil_r; reflexivity.
Qed.

(** With no timeout pending, only a call of [connect] opens a transport. *)
Lemma steady_step (a : Action) (w : World) :
  a ≠ Connect → timers w = ∅ → attempts (step a w) = attempts w.
Proof.
  assert (Htask : ∀ (m : M World ()) (w1 : World), steady m →
            attempts (task m w1) = attempts w1).
  { intros m w1 Hm. unfold task. specialize (Hm w1).
    destruct (m w1) as [[[]|e] w2]; cbn in Hm; [exact Hm|].
    rewrite attempts_emit, app_nil_r. exact Hm. }
  intros Ha Ht. destruct a as [| chunk | text | | e]; cbn [step].
  - contradiction.
  - unfold sendAudioChunk. apply steady_bind; [intros ?; reflexivity|].
    intros [|]; [apply steady_send | apply steady_ret].
  - unfold sendText. apply steady_bind; [intros ?; reflexivity|].
    intros [|]; [apply steady_send | apply steady_ret].
  - apply steady_disconnect.
  - unfold deliver. destruct (enabled e w) eqn:Hen; [|reflexivity].
    destruct e as [id | id data | id | id | h].
    + apply (Htask onopen (set_readyState id OPEN w)).
      now apply (steady_emit (CallStatus open)).
    + apply Htask, steady_onmessage.
    + apply Htask. now apply (steady_emit (CallStatus error)).
    + apply (Htask onclose (set_readyState id CLOSED w)), steady_onclose.
    + cbn in Hen. rewrite Ht, lookup_empty in Hen.
      apply bool_decide_eq_true in Hen. now destruct Hen.
Qed.

(** Once reconnection is disabled and no timeout is pending, no transport
    is opened again unless the owner calls [connect]. *)
Lemma no_attempt_without_timer (w : World) (actions : list Action) :
  shouldReconnect (this w) = false →
  timers w = ∅ →
  Forall (λ a, a ≠ Connect) actions →
  attempts (run actions w) = attempts w ∧ timers (run actions w) = ∅.
Proof.
  intros Hoff Ht Hno. revert w Hoff Ht. unfold run.
  induction Hno as [|a actions Ha _ IH]; intros w Hoff Ht; [auto|].
  cbn [foldl]. destruct (quiet_step a w Hoff) as (Hoff1 & _ & Hsub).
  assert (Ht1 : timers (step a w) = ∅).
  { apply map_empty. intros h. destruct (timers (step a w) !! h) eqn:Hh; [|reflexivity].
    apply (lookup_weaken _ _ _ _ Hh) in Hsub. rewrite Ht, lookup_empty in Hsub.
    discriminate Hsub. }
  destruct (IH (step a w) Hoff1 Ht1) as (Hatt & Hempty).
  split; [|exact Hempty]. rewrite Hatt. now apply steady_step.
Qed.

(** The reconnection cycle with one timeout at a time: a close with no
    other timeout pending schedules one, [disconnect] before it fires
    cancels it, and from then on no transport is opened unless the owner
    calls [connect]. *)
Lemma single_reconnect_cancelled (w : World) (id : nat) (actions : list Action) :
  shouldReconnect (this w) = true →
  timers w = ∅ →
  enabled (Closed id) w = true →
  onStatus (this w) closed = Return () →
  Forall (λ a, a ≠ Connect) actions →
  scheduled (deliver (Closed id) w) =
    scheduled w ++ [SetTimeout (next_timer w) 3000] ∧
  timers (disconnect (deliver (Closed id) w)).2 = ∅ ∧
  attempts (run actions (disconnect (deliver (Closed id) w)).2) = attempts w.
Proof.
  intros Hon Ht Hen Hcb Hno.
  destruct (close_schedules_one_reconnect w id Hon Hen Hcb) as (Htrace & Htimers & Hkept).
  assert (Hcleared : timers (disconnect (deliver (Closed id) w)).2 = ∅).
  { rewrite (disconnect_clears_kept_timer _ _ Hkept), Htimers, Ht.
    apply delete_insert_id, lookup_empty. }
  destruct (disconnect_effect (deliver (Closed id) w)) as (_ & Hoff & _ & _).
  destruct (no_attempt_without_timer _ actions Hoff Hcleared Hno) as (Hatt & _).
  split; [|split; [exact Hcleared|]].
  - unfold scheduled. rewrite Htrace, List.filter_app. reflexivity.
  - rewrite Hatt, steady_disconnect. unfold attempts.
    rewrite Htrace, List.filter_app. cbn. apply app_nil_r.
Qed.

(** *** One call of [connect] *)

Lemma state_of_set_readyState (w : World) (id id' : nat) (r : ReadyState) :
  state_of (set_readyState id r w) id' =
  if decide (id = id') then (λ _, r) <$> state_of w id' else state_of w id'.
Proof.
  unfold state_of, set_readyState. cbn.
  destruct (decide (id = id')) as [->|Hne].
  - rewrite list_lookup_alter_eq. now destruct (sockets w !! id').
  - now rewrite list_lookup_alter_ne.
Qed.

Lemma live_at_most_one (w : World) : orderly w → (length (live w) ≤ 1)%nat.
Proof.
  intros [Hcur _ _].
  assert (Hall : ∀ id, In id (live w) → ws (this w) = Some id).
  { intros id Hin. apply List.filter_In in Hin as [_ Hlive]. apply Hcur. exact Hlive. }
  assert (Hnodup : List.NoDup (live w)).
  { apply List.NoDup_filter, List.seq_NoDup. }
  destruct (live w) as [|a [|b l]]; cbn; [lia|lia|].
  exfalso. inversion Hnodup as [|? ? Hnot _]; subst. apply Hnot.
  assert (a = b) as ->; [|now left].
  pose proof (Hall a (or_introl eq_refl)) as Ha.
  pose proof (Hall b (or_intror (or_introl eq_refl))) as Hb. congruence.
Qed.

Lemma orderly_same_core (w w' : World) :
  this w' = this w → sockets w' = sockets w → timers w' = timers w →
  orderly w → orderly w'.
Proof.
  intros Hthis Hsockets Htimers [H1 H2 H3].
  constructor; unfold state_of in *; rewrite ?Hthis, ?Hsockets, ?Htimers; assumption.
Qed.

Lemma orderly_task_emitting (m : M World ()) (w : World) :
  (∀ w1, this (m w1).2 = this w1 ∧ sockets (m w1).2 = sockets w1 ∧
         timers (m w1).2 = timers w1) →
  orderly w → orderly (task m w).
Proof.
  intros Hm Hw. destruct (Hm w) as (Hthis & Hsockets & Htimers).
  unfold task. destruct (m w) as [[[]|e] w1]; cbn in *;
    now apply (orderly_same_core w).
Qed.

Lemma call_onStatus_core (s : Status) (w : World) :
  this (call_onStatus s w).2 = this w ∧ sockets (call_onStatus s w).2 = sockets w ∧
  timers (call_onStatus s w).2 = timers w.
Proof. now unfold call_onStatus. Qed.

Lemma onmessage_core (data : string) (w : World) :
  this (onmessage data w).2 = this w ∧ sockets (onmessage data w).2 = sockets w ∧
  timers (onmessage data w).2 = timers w.
Proof.
  unfold onmessage, call_onTranscript. unfold_m.
  destruct (JSON_parse data) as [v|e]; cbn; [|auto].
  now destruct (onTranscript (this w) v).
Qed.

Lemma orderly_send (p : Payload) (w : World) :
  orderly w → orderly ((connected ← gets isConnected;
                        if (connected : bool) then ws_send p else skip) w).2.
Proof.
  intros Hw. unfold ws_send. unfold_m. destruct (isConnected w); cbn; [|exact Hw].
  destruct (ws (this w)); [|exact Hw]. now apply (orderly_same_core w).
Qed.

Lemma orderly_opened (w : World) (id : nat) :
  state_of w id = Some CONNECTING → orderly w → orderly (set_readyState id OPEN w).
Proof.
  intros Hid [H1 H2 H3]. constructor.
  - intros id'. rewrite state_of_set_readyState. cbn.
    destruct (decide (id = id')) as [<-|_]; [|apply H1].
    intros _. apply H1. now rewrite Hid.
  - intros Hon id'. rewrite state_of_set_readyState. cbn.
    destruct (decide (id = id')) as [<-|_]; [|now apply H2].
    now rewrite Hid.
  - destruct H3 as [Hnone|(h & Hh & Hkept & Hon & Hdead)]; [now left|].
    specialize (Hdead id). now rewrite Hid in Hdead.
Qed.

Lemma orderly_closed (w : World) (id : nat) :
  orderly w → orderly (set_readyState id CLOSED w).
Proof.
  intros [H1 H2 H3]. constructor.
  - intros id'. rewrite state_of_set_readyState. cbn.
    destruct (decide (id = id')) as [<-|_]; [|apply H1].
    now destruct (state_of w id).
  - intros Hon id'. rewrite state_of_set_readyState. cbn.
    destruct (decide (id = id')) as [<-|_]; [|now apply H2].
    now destruct (state_of w id).
  - destruct H3 as [Hnone|(h & Hh & Hkept & Hon & Hdead)]; [now left|].
    right. exists h. repeat split; try assumption.
    intros id'. rewrite state_of_set_readyState.
    destruct (decide (id = id')) as [<-|_]; [|apply Hdead].
    now destruct (state_of w id).
Qed.

Lemma orderly_close_event (w : World) (id : nat) :
  orderly w → enabled (Closed id) w = true → orderly (deliver (Closed id) w).
Proof.
  intros Hw Hen. unfold deliver. rewrite Hen.
  pose proof (orderly_closed w id Hw) as Hw1.
  unfold task, onclose, call_onStatus, setTimeout. unfold_m.
  cbn [this set_readyState fst snd].
  destruct (onStatus (this w) closed) as [[]|e]; cbn [fst snd];
    [|now apply (orderly_same_core (set_readyState id CLOSED w))].
  destruct (shouldReconnect (this w)) eqn:Hon; cbn; rewrite Hon; cbn;
    [|now apply (orderly_same_core (set_readyState id CLOSED w))].
  assert (Hlive : is_live (state_of w id) = true).
  { cbn in Hen. fold (state_of w id) in Hen.
    pose proof (closing_is_final w Hw Hon id) as Hnot.
    destruct (state_of w id) as [[]|]; try reflexivity; try discriminate Hen.
    now destruct Hnot. }
  assert (Hnone : timers w = ∅).
  { destruct (one_timer w Hw) as [Hnone|(h & _ & _ & _ & Hdead)]; [exact Hnone|].
    rewrite Hdead in Hlive. discriminate Hlive. }
  assert (Hdead1 : ∀ id', is_live (state_of (set_readyState id CLOSED w) id') = false).
  { intros id'. rewrite state_of_set_readyState.
    destruct (decide (id = id')) as [<-|Hne]; [now destruct (state_of w id)|].
    destruct (is_live (state_of w id')) eqn:Hlive'; [|reflexivity].
    apply (live_is_current w Hw) in Hlive, Hlive'. congruence. }
  destruct Hw1 as [H1 H2 H3]. constructor.
  - exact H1.
  - intros _. apply H2. exact Hon.
  - right. exists (next_timer w). cbn. rewrite Hnone, insert_empty.
    repeat split; [exact Hon | exact Hdead1].
Qed.

Lemma orderly_connect_fresh (w : World) :
  orderly w → timers w = ∅ → (∀ id, is_live (state_of w id) = false) →
  orderly (connect w).2.
Proof.
  intros Hw Hnone Hdead. unfold connect, call_onStatus, new_WebSocket. unfold_m.
  destruct (isConnected w); cbn [fst snd]; [exact Hw|].
  destruct (onStatus (this w) connecting) as [[]|e]; cbn [fst snd];
    [|now apply (orderly_same_core w)].
  assert (Hstate : ∀ id,
            state_of {| this := set_ws (Some (length (sockets w))) (this w);
                        sockets := sockets w ++
                          [{| url := WS_BASE_URL +:+ "/ws/" +:+ meetingId (this w)
                                      +:+ "/" +:+ participantId (this w);
                              readyState := CONNECTING |}];
                        timers := timers w; next_timer := next_timer w;
                        trace := (trace w ++ [CallStatus connecting]) ++
                          [NewWebSocket (length (sockets w))
                             (WS_BASE_URL +:+ "/ws/" +:+ meetingId (this w)
                              +:+ "/" +:+ participantId (this w))] |} id =
            if decide (id = length (sockets w)) then Some CONNECTING
            else state_of w id).
  { intros id. unfold state_of. cbn [sockets].
    destruct (decide (id = length (sockets w))) as [->|Hne].
    - rewrite lookup_app_r by lia. now rewrite Nat.sub_diag.
    - destruct (sockets w !! id) as [s|] eqn:Hs.
      + now rewrite (lookup_app_l_Some _ _ _ _ Hs).
      + apply lookup_ge_None in Hs. rewrite lookup_app_r by lia.
        destruct (id - length (sockets w))%nat as [|k] eqn:Hk; [lia|reflexivity]. }
  cbn [emit this sockets timers next_timer trace].
  constructor.
  - intros id. rewrite Hstate. cbn.
    destruct (decide (id = length (sockets w))) as [->|_]; [reflexivity|].
    now rewrite Hdead.
  - cbn. intros Hon id. rewrite Hstate.
    destruct (decide (id = length (sockets w))) as [->|_]; [discriminate|].
    now apply (closing_is_final w Hw).
  - now left.
Qed.

Lemma orderly_timer_fired (w : World) (h : positive) :
  orderly w → enabled (TimerFired h) w = true → orderly (deliver (TimerFired h) w).
Proof.
  intros Hw Hen. unfold deliver. rewrite Hen.
  cbn in Hen. apply bool_decide_eq_true in Hen as [ms Hms].
  destruct (one_timer w Hw) as [Hnone|(h' & Hh' & Hkept & Hon & Hdead)].
  { rewrite Hnone, lookup_empty in Hms. discriminate Hms. }
  rewrite Hh' in Hms. apply lookup_singleton_Some in Hms as [<- _].
  assert (Hw1 : orderly (remove_timer h' w)).
  { destruct Hw as [H1 H2 _]. constructor; [exact H1 | exact H2|].
    left. cbn. rewrite Hh'. apply delete_singleton_eq. }
  assert (Hnone1 : timers (remove_timer h' w) = ∅).
  { cbn. rewrite Hh'. apply delete_singleton_eq. }
  pose proof (orderly_connect_fresh _ Hw1 Hnone1 Hdead) as Hconn.
  unfold task. destruct (connect (remove_timer h' w)) as [[[]|e] w2];
    cbn in Hconn; [exact Hconn|]. now apply (orderly_same_core w2).
Qed.

Lemma state_of_close_current (w : World) (id : nat) :
  state_of (close_current w) id =
  if decide (ws (this w) = Some id)
  then match state_of w id with
       | Some CONNECTING | Some OPEN => Some CLOSING
       | r => r
       end
  else state_of w id.
Proof.
  unfold close_current.
  destruct (ws (this w)) as [cur|] eqn:Hcur; [|now rewrite decide_False].
  fold (state_of w cur).
  destruct (decide (Some cur = Some id)) as [[= <-]|Hne].
  - destruct (state_of w cur) as [[]|] eqn:Hst;
      try (unfold state_of in *; cbn; now rewrite ?Hst);
      change (state_of (set_readyState cur CLOSING w) cur = Some CLOSING);
      rewrite state_of_set_readyState, Hst; cbn; now rewrite decide_True.
  - assert (cur ≠ id) by congruence.
    destruct (state_of w cur) as [[]|] eqn:Hst; try reflexivity;
      change (state_of (set_readyState cur CLOSING w) id = state_of w id);
      rewrite state_of_set_readyState; now rewrite decide_False.
Qed.

Lemma disconnect_world (w : World) :
  shouldReconnect (this (disconnect w).2) = false ∧
  ws (this (disconnect w).2) = None ∧
  timers (disconnect w).2 =
    match reconnectTimer (this w) with
    | Some h => delete h (timers w)
    | None => timers w
    end ∧
  ∀ id, state_of (disconnect w).2 id =
        if decide (ws (this w) = Some id)
        then match state_of w id with
             | Some CONNECTING | Some OPEN => Some CLOSING
             | r => r
             end
        else state_of w id.
Proof.
  unfold disconnect, clearTimeout, ws_close. unfold_m.
  cbn -[close_current state_of].
  destruct (reconnectTimer (this w)) as [h|]; cbn -[close_current state_of];
    match goal with |- context [close_current ?x] => set (w1 := x) end;
    destruct (close_current_core w1) as (Hthis & Htimers & _);
    rewrite Hthis, Htimers; repeat split;
    intros id;
    match goal with |- _ = ?r => change (state_of (close_current w1) id = r) end;
    now rewrite state_of_close_current.
Qed.

Lemma orderly_disconnect (w : World) : orderly w → orderly (disconnect w).2.
Proof.
  intros Hw.
  destruct (disconnect_world w) as (Hoff & Hws & Htimers & Hstate).
  assert (Hdead : ∀ id, is_live (state_of (disconnect w).2 id) = false).
  { intros id. rewrite Hstate.
    destruct (decide (ws (this w) = Some id)) as [Hcur|Hne].
    - now destruct (state_of w id) as [[]|].
    - destruct (is_live (state_of w id)) eqn:Hl; [|reflexivity].
      now apply (live_is_current w Hw) in Hl. }
  constructor.
  - intros id. now rewrite Hdead.
  - now rewrite Hoff.
  - left. rewrite Htimers.
    destruct (one_timer w Hw) as [Hnone|(h' & Hh' & Hkept & _ & _)].
    + rewrite Hnone. destruct (reconnectTimer (this w)); [apply delete_empty|reflexivity].
    + rewrite Hkept, Hh'. apply delete_singleton_eq.
Qed.

Lemma orderly_step (a : Action) (w : World) :
  a ≠ Connect → orderly w → orderly (step a w).
Proof.
  intros Ha Hw. destruct a as [| chunk | text | | e]; cbn [step].
  - contradiction.
  - now apply orderly_send.
  - now apply orderly_send.
  - now apply orderly_disconnect.
  - destruct (enabled e w) eqn:Hen; [|unfold deliver; now rewrite Hen].
    destruct e as [id | id data | id | id | h].
    + unfold deliver. rewrite Hen. apply orderly_task_emitting.
      * intros w1. apply call_onStatus_core.
      * apply orderly_opened; [|exact Hw]. cbn in Hen.
        now apply bool_decide_eq_true in Hen.
    + unfold deliver. rewrite Hen. apply orderly_task_emitting; [|exact Hw].
      intros w1. apply onmessage_core.
    + unfold deliver. rewrite Hen. apply orderly_task_emitting; [|exact Hw].
      intros w1. apply call_onStatus_core.
    + now apply orderly_close_event.
    + now apply orderly_timer_fired.
Qed.

(** A client whose owner calls [connect] once, and then only sends and
    disconnects, has at most one live transport at every moment, through
    every sequence of events of the browser: opens, messages, errors,
    closes and the reconnection timeouts they schedule. *)
Theorem one_connect_one_transport (c : RelayWebSocket) (actions : list Action) :
  Forall (λ a, a ≠ Connect) actions →
  (length (live (run actions (connect (page c)).2)) ≤ 1)%nat.
Proof.
  intros Hno. apply live_at_most_one.
  assert (Hstart : orderly (connect (page c)).2).
  { apply orderly_connect_fresh; [|reflexivity|].
    - constructor; [intros id; discriminate | intros _ id; discriminate | now left].
    - intros id. reflexivity. }
  revert Hstart. generalize (connect (page c)).2 as w. unfold run.
  induction Hno as [|a actions Ha _ IH]; intros w Hw; [exact Hw|].
  cbn [foldl]. apply IH. now apply orderly_step.
Qed.
End WebsocketFacts.

(** ** Closed examples for lib/websocket *)

(** [send_while_not_open] at a client that was never connected. *)
Lemma send_while_not_open_witness :
  let P := Fixtures.server (Throw (Rejected "offline")) in
  let w := Websocket.page Fixtures.quiet_client in
  Websocket.isConnected w = false ∧
  Websocket.sendAudioChunk [Byte.x52; Byte.x49] w = (Return (), w) ∧
  Websocket.sendText "ping" w = (Return (), w).
Proof.
  cbv zeta. split; [reflexivity|].
  apply send_while_not_open. reflexivity.
Defined.

(** [malformed_frame_dropped] at an open transport and a payload that is
    no JSON text. *)
Lemma malformed_frame_dropped_witness :
  let P := Fixtures.server (Throw (Rejected "offline")) in
  let w := Websocket.run [Websocket.Connect; Websocket.Browser (Websocket.Opened 0)]
             (Websocket.page Fixtures.quiet_client) in
  JSON_parse "<html>" = Throw SyntaxError ∧
  Websocket.enabled (Websocket.Message 0 "<html>") w = true ∧
  Websocket.onmessage "<html>" w = (Return (), w) ∧
  Websocket.deliver (Websocket.Message 0 "<html>") w = w.
Proof.
  cbv zeta. split; [reflexivity|]. split; [reflexivity|].
  apply (@malformed_frame_dropped (Fixtures.server (Throw (Rejected "offline")))
           "<html>" SyntaxError). reflexivity.
Defined.

(** C2, at a new client whose owner calls [connect] twice in a row: the
    first transport is still connecting, so the guard lets the second call
    through, and two transports are live at once. Both open, and a message
    on the first, which the client no longer refers to, still reaches the
    transcript callback. *)
Lemma connect_twice_two_live_transports :
  let P := Fixtures.server (Throw (Rejected "offline")) in
  let w := Websocket.run [Websocket.Connect; Websocket.Connect]
             (Websocket.page Fixtures.quiet_client) in
  let w' := Websocket.run [Websocket.Browser (Websocket.Opened 0);
                           Websocket.Browser (Websocket.Opened 1);
                           Websocket.Browser (Websocket.Message 0 "null")] w in
  Websocket.live w = [0%nat; 1%nat] ∧
  Websocket.ws (Websocket.this w) = Some 1%nat ∧
  Websocket.readyState <$> Websocket.sockets w' = [Websocket.OPEN; Websocket.OPEN] ∧
  last (Websocket.trace w') = Some (Websocket.CallTranscript JNull).
Proof. vm_compute. repeat split. Qed.

(** C1, at a client whose owner called [connect] twice and whose two
    transports both close: each close schedules a timeout, the second
    handle overwrites the first in [reconnectTimer], [disconnect] clears
    the second only, and when the first fires the client opens a new
    transport although it was disconnected before the delay elapsed. *)
Lemma overwritten_timer_survives_disconnect :
  let P := Fixtures.server (Throw (Rejected "offline")) in
  let w := Websocket.run [Websocket.Connect; Websocket.Connect;
                          Websocket.Browser (Websocket.Closed 0);
                          Websocket.Browser (Websocket.Closed 1)]
             (Websocket.page Fixtures.quiet_client) in
  let w' := Websocket.run [Websocket.Disconnect] w in
  let w'' := Websocket.run [Websocket.Browser (Websocket.TimerFired 1)] w' in
  Websocket.scheduled w =
    [Websocket.SetTimeout 1 3000; Websocket.SetTimeout 2 3000] ∧
  Websocket.reconnectTimer (Websocket.this w) = Some 2%positive ∧
  map_to_list (Websocket.timers w') = [(1%positive, 3000)] ∧
  Websocket.trace w'' =
    Websocket.trace w' ++
    [Websocket.CallStatus Websocket.connecting;
     Websocket.NewWebSocket 2 "ws://localhost:8000/ws/m1/p1"] ∧
  Websocket.live w'' = [2%nat].
Proof. vm_compute. repeat split. Qed.

(** ** The room page *)
Section RoomFacts.
Import Room.
Context `{Backend}.

(** C3: once the meeting is found, [init] resolves the participant in one
    of three ways. With a participant id in the link it adopts that id and
    makes the two lookups only, neither of which carries the credential: no
    company fetch, no participant created. Without one but with an
    identity it fetches the company, then creates exactly one participant
    named after the company, or after the identity's email when the
    company cannot be fetched. With neither it sets the log-in error,
    returns without a participant, and creates none. *)
Theorem init_resolves_participant (p_code : string) (pid : option string)
    (u : option AuthUser) (s : RoomState) (m : Meeting) :
  getMeetingByCode (calls s) p_code = Return m →
  let lookups := [GetMeetingByCode p_code; ListParticipants (meeting_id m)] in
  match supplied pid, u with
  | Some p, _ =>
      ∃ s', init p_code pid u s = (Return (Some p), s') ∧
            participantId s' = Some p ∧ isHost s' = false ∧
            company s' = company s ∧ error s' = error s ∧
            calls s' = calls s ++ lookups ∧
            List.filter attaches_credential (calls s') =
              List.filter attaches_credential (calls s) ∧
            List.filter is_join (calls s') = List.filter is_join (calls s)
  | None, Some usr =>
      let name := match getMyCompany (calls s ++ lookups) with
                  | Return c => company_name c
                  | Throw _ => email usr
                  end in
      let data := {| create_meeting_id := meeting_id m; create_name := name;
                     preferred_language := "en"; is_registered := Some true |} in
      ∃ c s', init p_code pid u s = (c, s') ∧
              calls s' = calls s ++ lookups ++ [GetMyCompany; JoinMeeting data] ∧
              List.filter is_join (calls s') =
                List.filter is_join (calls s) ++ [JoinMeeting data] ∧
              match joinMeeting (calls s ++ lookups ++ [GetMyCompany]) data with
              | Return created =>
                  c = Return (Some (participant_id created)) ∧
                  participantId s' = Some (participant_id created) ∧
                  isHost s' = true ∧ displayName s' = name
              | Throw e => c = Throw e ∧ participantId s' = participantId s
              end
  | None, None =>
      ∃ s', init p_code pid u s = (Return None, s') ∧
            error s' = Some "Please log in to start a meeting" ∧
            participantId s' = participantId s ∧
            calls s' = calls s ++ lookups ∧
            List.filter is_join (calls s') = List.filter is_join (calls s)
  end.
Proof.
  intros Hm. cbv zeta.
  unfold supplied, init, call, record_call, setMeeting, setParticipants,
    host_name_of, setCompany, setIdentity, setError. unfold_m.
  cbn. rewrite Hm. cbn. rewrite <- !app_assoc. cbn.
  destruct (listParticipants (calls s ++ [GetMeetingByCode p_code]) (meeting_id m))
    as [l|e]; cbn.
  all: destruct (truthy pid) eqn:Hpid; cbn;
    [destruct pid as [p|]; [|discriminate Hpid]; cbn; eexists; repeat split;
     try (cbn; rewrite List.filter_app; cbn; rewrite ?app_nil_r; reflexivity)|].
  all: destruct u as [usr|]; cbn;
    [|eexists; repeat split; try (cbn; rewrite List.filter_app; cbn; rewrite ?app_nil_r; reflexivity)].
  all: rewrite <- ?app_assoc; cbn.
  all: destruct (getMyCompany _) as [co|e']; cbn; rewrite <- ?app_assoc; cbn.
  all: destruct (joinMeeting _ _) as [created|e'']; cbn;
    do 2 eexists; repeat split; try (cbn; rewrite List.filter_app; cbn; rewrite ?app_nil_r; reflexivity).
Qed.

End RoomFacts.

(** ** Closed examples for the room page *)

(** [init_resolves_participant] on the link-join path: participant id
    [p-42] in the link and no identity. *)
Lemma init_resolves_participant_witness :
  let B := Fixtures.backend in
  let s := Room.mounted ∅ in
  Room.getMeetingByCode (Room.calls s) "ABC123" =
    Return {| Room.meeting_id := "m-1"; Room.code := "ABC123";
              Room.title := "Weekly"; Room.host_name := Some "Acme" |} ∧
  (Room.init "ABC123" (Some "p-42") None s).1 = Return (Some "p-42") ∧
  Room.calls (Room.init "ABC123" (Some "p-42") None s).2 =
    [Room.GetMeetingByCode "ABC123"; Room.ListParticipants "m-1"].
Proof.
  cbv zeta. split; [reflexivity|].
  destruct (@init_resolves_participant Fixtures.backend "ABC123" (Some "p-42") None
              (Room.mounted ∅) _ eq_refl)
    as (s' & Hinit & _ & _ & _ & _ & Hcalls & _ & _).
  rewrite Hinit. split; [reflexivity | exact Hcalls].
Defined.

(** The host path at the same server: one participant is created, named
    after the company. *)
Lemma init_host_path_example :
  let B := Fixtures.backend in
  let usr := {| Room.email := "a@b.com"; Room.role := "company";
                Room.entity_id := "c-1" |} in
  let s' := (Room.init "ABC123" None (Some usr) (Room.mounted ∅)).2 in
  List.filter Room.is_join (Room.calls s') =
    [Room.JoinMeeting {| Room.create_meeting_id := "m-1"; Room.create_name := "Acme";
                         Room.preferred_language := "en";
                         Room.is_registered := Some true |}] ∧
  Room.participantId s' = Some "p-1" ∧ Room.isHost s' = true.
Proof. vm_compute. repeat split. Qed.

(** ** Further closed examples *)

(** [single_reconnect_cancelled] at a client whose open transport closes:
    the timeout fires after [disconnect] to no effect. *)
Lemma single_reconnect_cancelled_witness :
  let P := Fixtures.server (Throw (Rejected "offline")) in
  let w := Websocket.run [Websocket.Connect; Websocket.Browser (Websocket.Opened 0)]
             (Websocket.page Fixtures.quiet_client) in
  let later := [Websocket.Browser (Websocket.TimerFired 1); Websocket.SendText "ping"] in
  let w' := (Websocket.disconnect (Websocket.deliver (Websocket.Closed 0) w)).2 in
  (Websocket.shouldReconnect (Websocket.this w) = true ∧
   Websocket.timers w = ∅ ∧
   Websocket.enabled (Websocket.Closed 0) w = true) ∧
  Websocket.scheduled (Websocket.deliver (Websocket.Closed 0) w) =
    [Websocket.SetTimeout 1 3000] ∧
  Websocket.timers w' = ∅ ∧
  Websocket.attempts (Websocket.run later w') = Websocket.attempts w.
Proof.
  intros P w later w'. split; [repeat split|].
  destruct (single_reconnect_cancelled w 0%nat later eq_refl eq_refl eq_refl eq_refl)
    as (Hscheduled & Hcleared & Hattempts).
  - repeat constructor; discriminate.
  - split; [exact Hscheduled|]. split; [exact Hcleared | exact Hattempts].
Defined.

(** [restore_failure_clears_store] at the page and server of
    [restore_failure_leaves_cookie]. *)
Lemma restore_failure_clears_store_witness :
  let P := Fixtures.server (Return Fixtures.unauthorized) in
  let s := Auth.mounted (Fixtures.logged_in "tok") in
  truthy (Auth.stored_token s) = true ∧
  (Api.getMe (Auth.net s)).1 =
    Throw (Error "Could not validate credentials") ∧
  Auth.stored_token (Auth.restore s).2 = None ∧
  Auth.user (Auth.restore s).2 = Auth.user s ∧
  Auth.cookie_token (Auth.restore s).2 = Auth.cookie_token s.
Proof.
  cbv zeta.
  assert (Htok : truthy (Auth.stored_token
                   (Auth.mounted (@Fixtures.logged_in
                      (Fixtures.server (Return Fixtures.unauthorized)) "tok"))) = true)
    by (vm_compute; reflexivity).
  assert (Hme : (@Api.getMe (Fixtures.server (Return Fixtures.unauthorized))
                   (Auth.net (Auth.mounted (@Fixtures.logged_in
                      (Fixtures.server (Return Fixtures.unauthorized)) "tok")))).1 =
                Throw (Error "Could not validate credentials"))
    by (vm_compute; reflexivity).
  split; [exact Htok|]. split; [exact Hme|].
  exact (@restore_failure_clears_store
           (Fixtures.server (Return Fixtures.unauthorized)) _ _ Htok Hme).
Defined.

(** [one_connect_one_transport] through a reconnection: the transport
    opens and closes, the timeout fires, the next transport opens, and the
    owner disconnects. *)
Lemma one_connect_one_transport_witness :
  let P := Fixtures.server (Throw (Rejected "offline")) in
  let later := [Websocket.Browser (Websocket.Opened 0);
                Websocket.Browser (Websocket.Closed 0);
                Websocket.Browser (Websocket.TimerFired 1);
                Websocket.Browser (Websocket.Opened 1);
                Websocket.SendText "ping";
                Websocket.Disconnect] in
  Forall (λ a, a ≠ Websocket.Connect) later ∧
  (length (Websocket.live
             (Websocket.run later
                (Websocket.connect (Websocket.page Fixtures.quiet_client)).2)) ≤ 1)%nat.
Proof.
  intros P later.
  assert (Hlater : Forall (λ a, a ≠ Websocket.Connect) later)
    by (repeat constructor; discriminate).
  split; [exact Hlater|].
  exact (one_connect_one_transport Fixtures.quiet_client later Hlater).
Defined.

(** * Further properties *)

(** ** lib/api: the credential in requests *)
Section CredentialFacts.
Context `{Platform}.

(** With a non-empty credential in the durable store, a request that does
    not opt out carries it as [Bearer], also over an [Authorization] header
    of the caller; every other header is the caller's, or the default
    content type where the caller gave none. *)
Lemma stored_token_is_sent (path : string) (options : Api.RequestOptions)
    (n : Net) (w : Window) (t : string) :
  window n = Some w →
  localStorage w !! Api.TOKEN_KEY = Some t →
  t ≠ "" →
  Api.auth options ≠ Some false →
  ∃ req,
    Api.request path options n = (Return req, n) ∧
    req_headers req !! "Authorization" = Some ("Bearer " +:+ t) ∧
    (∀ k, k ≠ "Authorization" →
       req_headers req !! k =
       (default ∅ (Api.init_headers options)
        ∪ {["Content-Type" := "application/json"]}) !! k) ∧
    (∀ v, default ∅ (Api.init_headers options) !! "Content-Type" = Some v →
       req_headers req !! "Content-Type" = Some v).
Proof.
  intros Hw Ht Hne Hauth. unfold Api.request, Api.getToken. unfold_m.
  assert (Hon : default true (Api.auth options) = true).
  { destruct (Api.auth options) as [[]|]; try reflexivity. now destruct Hauth. }
  rewrite Hon, Hw. cbn. rewrite Ht. cbn.
  assert (Htruthy : negb (String.eqb t "") = true).
  { apply negb_true_iff, String.eqb_neq. exact Hne. }
  rewrite Htruthy. eexists. split; [reflexivity|]. cbn. repeat split.
  - apply lookup_insert_eq.
  - intros k Hk. now rewrite lookup_insert_ne.
  - intros v Hv. rewrite lookup_insert_ne by discriminate.
    now apply lookup_union_Some_l.
Qed.

(** A credential that is the empty string counts as none, and so does the
    durable store after [clearToken]: the request carries the caller's
    headers and the content type only. *)
Lemma empty_or_cleared_token_is_not_sent (path : string)
    (options : Api.RequestOptions) (n : Net) (w : Window) :
  window n = Some w →
  let plain := default ∅ (Api.init_headers options)
               ∪ {["Content-Type" := "application/json"]} in
  (localStorage w !! Api.TOKEN_KEY = Some "" →
   ∃ req, Api.request path options n = (Return req, n) ∧ req_headers req = plain) ∧
  (∃ req, Api.request path options (Api.clearToken n).2 =
            (Return req, (Api.clearToken n).2) ∧
          req_headers req = plain).
Proof.
  intros Hw plain. split.
  - intros Ht. unfold Api.request, Api.getToken. unfold_m.
    destruct (default true (Api.auth options)); [|eauto].
    rewrite Hw. cbn. rewrite Ht. cbn. eauto.
  - unfold Api.request, Api.getToken, Api.clearToken, with_window. unfold_m.
    rewrite Hw. cbn.
    destruct (default true (Api.auth options)); [|eauto].
    cbn. rewrite lookup_delete_eq. cbn. eauto.
Qed.

End CredentialFacts.

(** ** lib/websocket: addresses, frames, teardown *)
Section TransportFacts.
Import Websocket.
Context `{Platform}.

Lemma disconnect_torn_down (w : World) :
  shouldReconnect (this w) = false →
  reconnectTimer (this w) = None →
  ws (this w) = None →
  disconnect w = (Return (), w).
Proof.
  destruct w as [[] ? ? ? ?]. cbn. intros -> -> ->. reflexivity.
Qed.

Lemma disconnect_tears_down (w : World) :
  shouldReconnect (this (disconnect w).2) = false ∧
  reconnectTimer (this (disconnect w).2) = None ∧
  ws (this (disconnect w).2) = None.
Proof.
  unfold disconnect, clearTimeout, ws_close. unfold_m.
  cbn -[close_current].
  destruct (reconnectTimer (this w)) as [h|] eqn:Hh; cbn -[close_current];
    match goal with |- context [close_current ?x] => set (w1 := x) end;
    destruct (close_current_core w1) as (Hthis & _);
    rewrite Hthis; subst w1; cbn; auto.
Qed.

(** A second [disconnect] in a row does nothing at all: no call of the
    transport or of the timer API, no change of the client. *)
Lemma disconnect_idempotent (w : World) :
  disconnect (disconnect w).2 = (Return (), (disconnect w).2).
Proof.
  destruct (disconnect_tears_down w) as (Hoff & Htimer & Hws).
  now apply disconnect_torn_down.
Qed.




Lemma transcripts_emit (e : Effect) (w : World) :
  transcripts (emit e w) =
  transcripts w ++ match e with CallTranscript data => [data] | _ => [] end.
Proof.
  unfold transcripts, emit. cbn. rewrite omap_app. cbn. now destruct e.
Qed.

Lemma message_on_open (w : World) (id : nat) (data : string) :
  state_of w id = Some OPEN →
  state_of (deliver (Message id data) w) id = Some OPEN ∧
  transcripts (deliver (Message id data) w) =
    transcripts w ++ option_list (well_formed data).
Proof.
  intros Hopen. unfold deliver. cbn [enabled]. rewrite Hopen, bool_decide_eq_true_2 by done.
  unfold task, onmessage, call_onTranscript, well_formed. unfold_m.
  destruct (JSON_parse data) as [v|e]; cbn.
  - destruct (onTranscript (this w) v) as [[]|e]; cbn;
      (split; [exact Hopen|]);
      change (transcripts (emit (CallTranscript v) w) = transcripts w ++ [v]);
      now rewrite transcripts_emit.
  - split; [exact Hopen|]. now rewrite app_nil_r.
Qed.

(** On an open transport the client hands the transcript callback exactly
    the frames that parse, in the order of their arrival, and drops the
    others, whether or not the callback throws. *)
Lemma frames_forwarded_in_order (w : World) (id : nat) (frames : list string) :
  state_of w id = Some OPEN →
  transcripts (run ((λ data, Browser (Message id data)) <$> frames) w) =
    transcripts w ++ omap well_formed frames.
Proof.
  revert w. unfold run.
  induction frames as [|data frames IH]; intros w Hopen; cbn.
  - now rewrite app_nil_r.
  - destruct (message_on_open w id data Hopen) as [Hopen' Hdata].
    rewrite (IH _ Hopen'), Hdata, <- app_assoc. f_equal.
    now destruct (well_formed data).
Qed.

(** *** One address per client *)

Lemma addressed_same (c : RelayWebSocket) (w w' : World) :
  meetingId (this w') = meetingId (this w) →
  participantId (this w') = participantId (this w) →
  sockets w' = sockets w →
  addressed c w → addressed c w'.
Proof. intros Hm Hp Hs (? & ? & ?). unfold addressed. now rewrite Hm, Hp, Hs. Qed.

Lemma addressed_set_readyState (c : RelayWebSocket) (w : World) (id : nat)
    (r : ReadyState) :
  addressed c w → addressed c (set_readyState id r w).
Proof.
  intros (Hm & Hp & Hs). repeat split; [exact Hm | exact Hp|].
  cbn. apply Forall_alter; [exact Hs|]. intros s Hs' Hurl. exact Hurl.
Qed.

Lemma addressed_connect (c : RelayWebSocket) (w : World) :
  addressed c w → addressed c (connect w).2.
Proof.
  intros Hw. unfold connect, call_onStatus, new_WebSocket. unfold_m.
  destruct (isConnected w); cbn [fst snd]; [exact Hw|].
  destruct (onStatus (this w) connecting) as [[]|e]; cbn [fst snd];
    [|now apply (addressed_same c w)].
  destruct Hw as (Hm & Hp & Hs). repeat split; cbn; [exact Hm | exact Hp|].
  apply Forall_app. split; [exact Hs|]. constructor; [|constructor].
  cbn. unfold address_of. now rewrite Hm, Hp.
Qed.

Lemma addressed_task (c : RelayWebSocket) (m : M World ()) (w : World) :
  (∀ w1, meetingId (this (m w1).2) = meetingId (this w1) ∧
         participantId (this (m w1).2) = participantId (this w1) ∧
         sockets (m w1).2 = sockets w1) →
  addressed c w → addressed c (task m w).
Proof.
  intros Hm Hw. destruct (Hm w) as (H1 & H2 & H3). unfold task.
  destruct (m w) as [[[]|e] w1]; cbn in *; now apply (addressed_same c w).
Qed.

Lemma addressed_step (c : RelayWebSocket) (a : Action) (w : World) :
  addressed c w → addressed c (step a w).
Proof.
  intros Hw. destruct a as [| chunk | text | | e]; cbn [step].
  - now apply addressed_connect.
  - unfold sendAudioChunk, ws_send. unfold_m. destruct (isConnected w); cbn; [|exact Hw].
    destruct (ws (this w)); [now apply (addressed_same c w) | exact Hw].
  - unfold sendText, ws_send. unfold_m. destruct (isConnected w); cbn; [|exact Hw].
    destruct (ws (this w)); [now apply (addressed_same c w) | exact Hw].
  - unfold disconnect, clearTimeout, ws_close, close_current. unfold_m. cbn.
    destruct (reconnectTimer (this w)) as [h|]; cbn;
      (destruct (ws (this w)) as [id|]; cbn;
       [destruct (is_live (state_of _ id)); cbn|]);
      try (now apply (addressed_same c w));
      now apply (addressed_same c (set_readyState id CLOSING w));
        try apply addressed_set_readyState.
  - unfold deliver. destruct (enabled e w); [|exact Hw].
    destruct e as [id | id data | id | id | h].
    + apply addressed_task; [|now apply addressed_set_readyState].
      intros w1. now unfold onopen, call_onStatus.
    + apply addressed_task; [|exact Hw].
      intros w1. unfold onmessage, call_onTranscript. unfold_m.
      destruct (JSON_parse data) as [v|e]; cbn; [|auto].
      now destruct (onTranscript (this w1) v).
    + apply addressed_task; [|exact Hw].
      intros w1. now unfold onerror, call_onStatus.
    + apply addressed_task; [|now apply addressed_set_readyState].
      intros w1. unfold onclose, call_onStatus, setTimeout. unfold_m.
      destruct (onStatus (this w1) closed) as [[]|e]; cbn; [|auto].
      now destruct (shouldReconnect (this w1)).
    + unfold task.
      assert (Hw1 : addressed c (remove_timer h w)) by now apply (addressed_same c w).
      pose proof (addressed_connect c _ Hw1) as Hconn.
      destruct (connect (remove_timer h w)) as [[[]|e] w2]; cbn in *;
        [exact Hconn | now apply (addressed_same c w2)].
Qed.

(** Whatever the owner calls and the browser delivers, every transport a
    client ever opens, the first and each reconnection, is opened at the
    same address: the one its meeting and participant give. *)
Lemma transports_share_address (c : RelayWebSocket) (actions : list Action) :
  Forall (λ s, url s = address_of c) (sockets (run actions (page c))).
Proof.
  assert (Hstart : addressed c (page c)) by (repeat split; constructor).
  revert Hstart. generalize (page c) as w. unfold run.
  induction actions as [|a actions IH]; intros w Hw; cbn [foldl].
  - now destruct Hw as (_ & _ & Hs).
  - apply IH. now apply addressed_step.
Qed.

End TransportFacts.

(** ** lib/auth: signing in *)
Section SessionFacts.
Context `{Platform}.

Lemma apiFetch_sent path options n req :
  Api.request path options n = (Return req, n) →
  (Api.apiFetch path options n).2 =
    {| window := window n; requests := requests n ++ [req] |}.
Proof.
  intros Hreq. rewrite (apiFetch_unfold _ _ _ _ Hreq).
  destruct (fetch (requests n) req) as [r|e]; [|reflexivity]. apply settle_store.
Qed.

(** The request of [loginCompany]: to the gateway, with no credential. *)
Lemma loginCompany_sent (email password : string) (n : Net) :
  ∃ req,
    (Api.loginCompany email password n).2 =
      {| window := window n; requests := requests n ++ [req] |} ∧
    req_url req = Api.BASE_URL +:+ "/auth/login" ∧
    req_headers req !! "Authorization" = None.
Proof.
  unfold Api.loginCompany.
  match goal with |- context [Api.apiFetch ?p ?o n] =>
    destruct (auth_false_sends_no_credential p o n eq_refl) as (req & Hreq & Hh);
    exists req; split; [exact (apiFetch_sent p o n req Hreq)|];
    revert Hreq; unfold Api.request; unfold_m; cbn; intros [= <-]
  end.
  split; reflexivity.
Qed.

Lemma login_unfold (email password : string) (s : Auth.AuthState) :
  Auth.login email password s =
  match Api.loginCompany email password (Auth.net s) with
  | (Throw e, n1) =>
      (Throw e, {| Auth.net := n1; Auth.user := Auth.user s;
                   Auth.isLoading := Auth.isLoading s |})
  | (Return tokenData, n1) =>
      match property_of tokenData "access_token" with
      | Throw e =>
          (Throw e, {| Auth.net := n1; Auth.user := Auth.user s;
                       Auth.isLoading := Auth.isLoading s |})
      | Return tok =>
          match (Api.setToken tok;; Auth.setCookie "relay_token" tok) n1 with
          | (Throw e, n2) =>
              (Throw e, {| Auth.net := n2; Auth.user := Auth.user s;
                           Auth.isLoading := Auth.isLoading s |})
          | (Return _, n2) =>
              match Api.getMe n2 with
              | (Return me, n3) =>
                  (Return (), {| Auth.net := n3; Auth.user := me;
                                 Auth.isLoading := Auth.isLoading s |})
              | (Throw e, n3) =>
                  (Throw e, {| Auth.net := n3; Auth.user := Auth.user s;
                               Auth.isLoading := Auth.isLoading s |})
              end
          end
      end
  end.
Proof.
  unfold Auth.login, Auth.in_net, Auth.setUser. unfold_m.
  cbn -[Api.loginCompany Api.getMe Api.setToken Auth.setCookie].
  destruct (Api.loginCompany email password (Auth.net s)) as [[tokenData|e] n1];
    cbn -[Api.getMe Api.setToken Auth.setCookie]; [|reflexivity].
  destruct (property_of tokenData "access_token") as [tok|e];
    cbn -[Api.getMe Api.setToken Auth.setCookie]; [|reflexivity].
  destruct (Api.setToken tok n1) as [[[]|e] n2];
    cbn -[Api.getMe Auth.setCookie]; [|reflexivity].
  destruct (Auth.setCookie "relay_token" tok n2) as [[[]|e] n3];
    cbn -[Api.getMe]; [|reflexivity].
  destruct (Api.getMe n3) as [[me|e] n4]; reflexivity.
Qed.

(** The page after [setToken(tok); setCookie("relay_token", tok)] for a
    value whose string conversion is [t], by what the storage and the
    encoder do with [t]. *)
Lemma persisted (tok : JsValue) (t : string) (n : Net) (w : Window) :
  window n = Some w →
  to_string tok = Return t →
  (Api.setToken tok;; Auth.setCookie "relay_token" tok) n =
  match setItem (localStorage w) Api.TOKEN_KEY t with
  | Throw e => (Throw e, n)
  | Return _ =>
      let stored := {| localStorage := <[Api.TOKEN_KEY := t]> (localStorage w);
                       cookie_jar := cookie_jar w; Date_now := Date_now w |} in
      match encodeURIComponent t with
      | Throw e => (Throw e, {| window := Some stored; requests := requests n |})
      | Return encoded =>
          (Return (),
           {| window :=
                Some {| localStorage := <[Api.TOKEN_KEY := t]> (localStorage w);
                        cookie_jar :=
                          <[("relay_token", "/") :=
                              {| cookie_value := encoded;
                                 cookie_expires := Date_now w + Auth.HALF_DAY_MS |}]>
                            (cookie_jar w);
                        Date_now := Date_now w |};
              requests := requests n |})
      end
  end.
Proof.
  intros Hw Ht. unfold Api.setToken, Auth.setCookie, try_window, set_item. unfold_m.
  rewrite Hw, !Ht.
  destruct (setItem (localStorage w) Api.TOKEN_KEY t) as [[]|e]; cbn; [|reflexivity].
  destruct (encodeURIComponent t) as [encoded|e]; cbn; [|reflexivity].
  unfold Auth.assign_cookie. cbn.
  assert (Hlater : (Date_now w + Auth.HALF_DAY_MS <=? Date_now w)%Z = false)
    by (apply Z.leb_gt; unfold Auth.HALF_DAY_MS; lia).
  now rewrite Hlater.
Qed.

(** The request of a call that does not opt out, from a page that holds a
    non-empty credential. *)
Lemma request_with_token (path : string) (options : Api.RequestOptions)
    (n : Net) (w : Window) (t : string) :
  window n = Some w →
  localStorage w !! Api.TOKEN_KEY = Some t →
  t ≠ "" →
  Api.auth options ≠ Some false →
  Api.request path options n =
    (Return {| req_url := Api.BASE_URL +:+ path;
               req_method := Api.init_method options;
               req_headers :=
                 <["Authorization" := "Bearer " +:+ t]>
                   (default ∅ (Api.init_headers options)
                    ∪ {["Content-Type" := "application/json"]});
               req_body := JSON_stringify <$> Api.body options |}, n).
Proof.
  intros Hw Ht Hne Hauth. unfold Api.request, Api.getToken. unfold_m.
  assert (Hon : default true (Api.auth options) = true).
  { destruct (Api.auth options) as [[]|]; try reflexivity. now destruct Hauth. }
  rewrite Hon, Hw. cbn. rewrite Ht. cbn.
  assert (Htruthy : negb (String.eqb t "") = true).
  { apply negb_true_iff, String.eqb_neq. exact Hne. }
  now rewrite Htruthy.
Qed.

(** [login] writes the credential to the durable store, then to the
    cookie, then asks for the identity, and takes nothing back. When the
    gateway has answered with token data whose [access_token] converts to
    the string [t] and both writes are taken, the credential is in both
    surfaces whatever the identity fetch does: when that fetch fails,
    [login] fails with the credential stored and the published identity as
    it was. When the encoder throws, [login] fails after its one request
    with the credential in the durable store and the cookie as it was;
    when the storage refuses the write, it fails after its one request
    with the page's stores as they were. *)
Lemma login_persists_before_identity (email password : string)
    (s : Auth.AuthState) (w : Window) (tokenData tok : JsValue) (t : string) :
  window (Auth.net s) = Some w →
  (Api.loginCompany email password (Auth.net s)).1 = Return tokenData →
  property_of tokenData "access_token" = Return tok →
  to_string tok = Return t →
  let s' := (Auth.login email password s).2 in
  let outcome := (Auth.login email password s).1 in
  match setItem (localStorage w) Api.TOKEN_KEY t, encodeURIComponent t with
  | Return _, Return encoded =>
      Auth.stored_token s' = Some t ∧
      Auth.cookie_token s' = Some encoded ∧
      (outcome = Return () ∨ ∃ e, outcome = Throw e ∧ Auth.user s' = Auth.user s)
  | Return _, Throw e =>
      outcome = Throw e ∧
      Auth.stored_token s' = Some t ∧
      Auth.cookie_token s' = Auth.cookie_token s ∧
      Auth.user s' = Auth.user s ∧
      length (requests (Auth.net s')) = S (length (requests (Auth.net s)))
  | Throw e, _ =>
      outcome = Throw e ∧
      window (Auth.net s') = window (Auth.net s) ∧
      Auth.user s' = Auth.user s ∧
      length (requests (Auth.net s')) = S (length (requests (Auth.net s)))
  end.
Proof.
  intros Hw Hlogin Htok Ht. cbv zeta. rewrite login_unfold.
  destruct (loginCompany_sent email password (Auth.net s)) as (req & Hsent & _).
  destruct (Api.loginCompany email password (Auth.net s)) as [c n1].
  cbn in Hlogin, Hsent. subst c n1. rewrite Htok.
  set (n1 := {| window := window (Auth.net s);
                requests := requests (Auth.net s) ++ [req] |}).
  rewrite (persisted tok t n1 w Hw Ht).
  destruct (setItem (localStorage w) Api.TOKEN_KEY t) as [[]|e].
  - cbv zeta. destruct (encodeURIComponent t) as [encoded|e].
    + match goal with |- context [Api.getMe ?n] => set (n2 := n) end.
      destruct (apiFetch_store "/auth/me" Api.no_options n2) as (c & req2 & Hme).
      unfold Api.getMe. rewrite Hme.
      unfold Auth.stored_token, Auth.cookie_token.
      destruct c as [me|e]; cbn; (split; [apply lookup_insert_eq|]);
        (split; [now rewrite lookup_insert_eq|]);
        [left | right; exists e]; auto.
    + unfold Auth.stored_token, Auth.cookie_token. cbn. rewrite Hw. cbn.
      split; [reflexivity|]. split; [apply lookup_insert_eq|].
      split; [reflexivity|]. split; [reflexivity|].
      rewrite length_app. cbn. lia.
  - destruct (encodeURIComponent t); cbn;
      (split; [reflexivity|]); (split; [reflexivity|]); (split; [reflexivity|]);
      rewrite length_app; cbn; lia.
Qed.

(** When both writes of a [login] are taken, it makes two requests: the
    first, to the gateway, carries no credential, also from a page that
    holds an older one, and the second, for the identity, carries the
    credential the gateway has just given. *)
Lemma login_identity_request_carries_new_token (email password : string)
    (s : Auth.AuthState) (w : Window) (tokenData tok : JsValue)
    (t encoded : string) :
  window (Auth.net s) = Some w →
  (Api.loginCompany email password (Auth.net s)).1 = Return tokenData →
  property_of tokenData "access_token" = Return tok →
  to_string tok = Return t →
  t ≠ "" →
  setItem (localStorage w) Api.TOKEN_KEY t = Return () →
  encodeURIComponent t = Return encoded →
  ∃ r1 r2,
    requests (Auth.net (Auth.login email password s).2) =
      requests (Auth.net s) ++ [r1; r2] ∧
    req_url r1 = Api.BASE_URL +:+ "/auth/login" ∧
    req_headers r1 !! "Authorization" = None ∧
    req_url r2 = Api.BASE_URL +:+ "/auth/me" ∧
    req_headers r2 !! "Authorization" = Some ("Bearer " +:+ t).
Proof.
  intros Hw Hlogin Htok Ht Hne Hstore Hencode. rewrite login_unfold.
  destruct (loginCompany_sent email password (Auth.net s)) as (r1 & Hsent & Hurl & Hnone).
  destruct (Api.loginCompany email password (Auth.net s)) as [c n1].
  cbn in Hlogin, Hsent. subst c n1. rewrite Htok.
  set (n1 := {| window := window (Auth.net s);
                requests := requests (Auth.net s) ++ [r1] |}).
  rewrite (persisted tok t n1 w Hw Ht), Hstore, Hencode.
  cbv beta iota zeta.
  match goal with |- context [Api.getMe ?n] => set (n2 := n) end.
  pose proof (request_with_token "/auth/me" Api.no_options n2 _ t
                eq_refl (lookup_insert_eq _ _ _) Hne) as Hreq.
  specialize (Hreq ltac:(discriminate)).
  pose proof (apiFetch_sent _ _ _ _ Hreq) as Hme.
  unfold Api.getMe.
  destruct (Api.apiFetch "/auth/me" Api.no_options n2) as [c n3].
  cbn in Hme. subst n3. eexists r1, _.
  split; [destruct c; cbn; now rewrite <- app_assoc|].
  split; [exact Hurl|]. split; [exact Hnone|]. split; [reflexivity|].
  cbn. apply lookup_insert_eq.
Qed.

(** When the gateway refuses, or answers with nothing a token can be read
    off ([null], or no content), [login] fails with that failure after its
    one request: nothing is written to the durable store or the cookie,
    the identity is not asked for, and the published identity stays. *)
Lemma login_gateway_failure (email password : string) (s : Auth.AuthState)
    (e : Exn) :
  (Api.loginCompany email password (Auth.net s)).1 = Throw e ∨
  (∃ v, (Api.loginCompany email password (Auth.net s)).1 = Return v ∧
        property_of v "access_token" = Throw e) →
  ∃ req,
    Auth.login email password s =
      (Throw e,
       {| Auth.net := {| window := window (Auth.net s);
                         requests := requests (Auth.net s) ++ [req] |};
          Auth.user := Auth.user s; Auth.isLoading := Auth.isLoading s |}) ∧
    req_url req = Api.BASE_URL +:+ "/auth/login".
Proof.
  intros Hfail. rewrite login_unfold.
  destruct (loginCompany_sent email password (Auth.net s)) as (req & Hsent & Hurl & _).
  exists req. split; [|exact Hurl].
  destruct (Api.loginCompany email password (Auth.net s)) as [c n1].
  cbn in Hfail, Hsent. subst n1.
  destruct Hfail as [->|(v & -> & ->)]; reflexivity.
Qed.

(** When the registration is refused, [register] fails with that failure
    after its one request, which carries no credential: [login] is not
    attempted, and the page's stores and identity stay as they were. *)
Lemma register_failure_skips_login (name email password : string)
    (s : Auth.AuthState) (e : Exn) :
  (Api.registerCompany name email password (Auth.net s)).1 = Throw e →
  ∃ req,
    Auth.register name email password s =
      (Throw e,
       {| Auth.net := {| window := window (Auth.net s);
                         requests := requests (Auth.net s) ++ [req] |};
          Auth.user := Auth.user s; Auth.isLoading := Auth.isLoading s |}) ∧
    req_url req = Api.BASE_URL +:+ "/auth/register" ∧
    req_headers req !! "Authorization" = None.
Proof.
  intros Hfail. unfold Auth.register, Auth.in_net. unfold_m.
  revert Hfail. unfold Api.registerCompany.
  match goal with |- context [Api.apiFetch ?p ?o (Auth.net s)] =>
    destruct (auth_false_sends_no_credential p o (Auth.net s) eq_refl)
      as (req & Hreq & Hh);
    pose proof (apiFetch_sent p o _ req Hreq) as Hsent;
    destruct (Api.apiFetch p o (Auth.net s)) as [c n1]
  end.
  cbn in Hsent. subst n1. cbn. intros ->. exists req.
  split; [reflexivity|].
  revert Hreq. unfold Api.request. unfold_m. cbn. intros [= <-].
  split; reflexivity.
Qed.

End SessionFacts.

(** ** The route guard *)
Section GuardFacts.
Import Middleware.

(** The guard never redirects twice: the target of a redirect, asked for
    with the same cookie, is let through. *)
Lemma middleware_redirect_stable (pathname : string) (token : option string) :
  match middleware pathname token with
  | next => True
  | redirect target _ => middleware target token = next
  end.
Proof.
  unfold middleware. cbn.
  destruct (String.prefix "/dashboard" pathname), (truthy token) eqn:Htoken;
    cbn; rewrite ?Htoken; try exact I; try reflexivity.
  all: destruct (String.prefix "/login" pathname || (String.prefix "/signup" pathname || false));
    cbn; rewrite ?Htoken; try exact I; reflexivity.
Qed.

Context `{Platform}.

(** After [logout] the guard, given the cookie the page is left with,
    sends every dashboard path to the login page, with the path asked for
    as the [redirect] parameter, and lets the login and signup pages
    through. *)
Lemma guard_after_logout (s : Auth.AuthState) (w : Window) (pathname : string) :
  window (Auth.net s) = Some w →
  0 < Date_now w →
  String.prefix "/dashboard" pathname = true →
  let token := Auth.cookie_token (Auth.logout s).2 in
  middleware pathname token = redirect "/login" [("redirect", pathname)] ∧
  middleware "/login" token = next ∧
  middleware "/signup" token = next.
Proof.
  intros Hw Hnow Hpath. cbv zeta.
  assert (Hcookie : Auth.cookie_token (Auth.logout s).2 = None).
  { unfold Auth.logout, Auth.in_net, Api.clearToken, Auth.deleteCookie,
      Auth.setUser, with_window, Auth.cookie_token, Auth.assign_cookie. unfold_m.
    rewrite Hw. cbn.
    assert (Hpast : (0 <=? Date_now w)%Z = true) by (apply Z.leb_le; lia).
    rewrite Hpast. now rewrite lookup_delete_eq. }
  rewrite Hcookie. unfold middleware. cbn. now rewrite Hpath.
Qed.

(** When the mount effect finds the stored credential rejected, it empties
    the durable store only; the guard, given the cookie the page is left
    with, still takes the visitor for signed in: it lets the dashboard
    through and sends the login page back to the dashboard, while lib/api
    has no credential left to send. *)
Lemma guard_after_failed_restore (s : Auth.AuthState) (e : Exn) :
  truthy (Auth.stored_token s) = true →
  truthy (Auth.cookie_token s) = true →
  (Api.getMe (Auth.net s)).1 = Throw e →
  let s' := (Auth.restore s).2 in
  Auth.stored_token s' = None ∧
  middleware "/login" (Auth.cookie_token s') = redirect "/dashboard" [] ∧
  middleware "/dashboard" (Auth.cookie_token s') = next.
Proof.
  destruct s as [[win reqs] u l].
  destruct (apiFetch_store "/auth/me" Api.no_options
              {| window := win; requests := reqs |}) as (c & req & Hme).
  unfold Auth.restore, Auth.stored_token, Auth.cookie_token, Auth.in_net,
    Api.getMe, Api.getToken, Auth.setIsLoading, Auth.setUser, Api.clearToken,
    with_window. unfold_m.
  cbn -[Api.apiFetch]. intros Htok Hcookie.
  destruct win as [w|]; cbn -[Api.apiFetch] in *; [|discriminate Htok].
  rewrite Htok. cbn -[Api.apiFetch]. rewrite Hme. cbn. intros ->. cbn.
  split; [apply lookup_delete_eq|].
  unfold middleware. cbn. now rewrite Hcookie.
Qed.

End GuardFacts.

(** ** The room page: failures of [init], remote users *)
Section RoomFailures.
Import Room.
Context `{Backend}.

(** [init] never reports a failure of its own: whenever it throws, the
    page's error cell and the participant it shows are as before. What
    throws is the meeting lookup or, for a host, the creation of the
    participant; with a participant id in the link it can only be the
    lookup, and then nothing else was called. *)
Lemma init_failure_is_silent (p_code : string) (pid : option string)
    (u : option AuthUser) (s : RoomState) (e : Exn) :
  (init p_code pid u s).1 = Throw e →
  let s' := (init p_code pid u s).2 in
  error s' = error s ∧
  participantId s' = participantId s ∧
  isHost s' = isHost s ∧
  displayName s' = displayName s ∧
  (truthy pid = true ∨ u = None →
   getMeetingByCode (calls s) p_code = Throw e ∧
   s' = record_call (GetMeetingByCode p_code) s).
Proof.
  cbv zeta.
  unfold init, call, record_call, setMeeting, setParticipants,
    host_name_of, setCompany, setIdentity, setError. unfold_m.
  cbn. destruct (getMeetingByCode (calls s) p_code) as [m|e0]; cbn.
  - destruct (listParticipants _ _) as [l|e1]; cbn.
    all: destruct (truthy pid) eqn:Hpid; cbn; [discriminate|].
    all: destruct u as [usr|]; cbn; [|discriminate].
    all: destruct (getMyCompany _) as [co|e2]; cbn.
    all: destruct (joinMeeting _ _) as [created|e3]; cbn; [discriminate|].
    all: intros _; do 4 (split; [reflexivity|]).
    all: intros [Habs|Habs]; discriminate Habs.
  - intros [= ->]. do 4 (split; [reflexivity|]). intros _. split; reflexivity.
Qed.

End RoomFailures.

Section ChannelFacts.
Import Room.

Lemma strict_eq_true (a b : UID) : strict_eq a b = true ↔ a = b.
Proof.
  destruct a as [x|x], b as [y|y]; cbn; try (split; [discriminate|congruence]).
  - rewrite Z.eqb_eq. split; congruence.
  - rewrite String.eqb_eq. split; congruence.
Qed.

Lemma existsb_uid (id : UID) (l : list RemoteUser) :
  existsb (λ u, strict_eq (uid u) id) l = true ↔ id ∈ uid <$> l.
Proof.
  rewrite existsb_exists, list_elem_of_fmap. split.
  - intros (u & Hu & Heq). apply strict_eq_true in Heq.
    exists u. split; [congruence | now apply list_elem_of_In].
  - intros (u & -> & Hu). exists u.
    split; [now apply list_elem_of_In | now apply strict_eq_true].
Qed.

Lemma uids_user_left (v : RemoteUser) (l : list RemoteUser) (id : UID) :
  id ∈ uid <$> user_left v l ↔ id ∈ uid <$> l ∧ id ≠ uid v.
Proof.
  unfold user_left. rewrite !list_elem_of_fmap. split.
  - intros (u & -> & Hu). apply list_elem_of_In, filter_In in Hu.
    destruct Hu as [Hu Hne]. apply negb_true_iff in Hne. split.
    + exists u. split; [reflexivity | now apply list_elem_of_In].
    + intros Heq. apply strict_eq_true in Heq. congruence.
  - intros ((u & -> & Hu) & Hne). exists u. split; [reflexivity|].
    apply list_elem_of_In, filter_In. split; [now apply list_elem_of_In|].
    apply negb_true_iff. destruct (strict_eq (uid u) (uid v)) eqn:Heq;
      [|reflexivity]. now apply strict_eq_true in Heq.
Qed.

Lemma on_channel_distinct (e : ChannelEvent) (l : list RemoteUser) :
  NoDup (uid <$> l) → NoDup (uid <$> on_channel e l).
Proof.
  intros Hl. destruct e as [u [|]|u]; cbn; [|exact Hl|].
  - unfold user_published.
    destruct (existsb (λ v, strict_eq (uid v) (uid u)) l) eqn:Hin; [exact Hl|].
    rewrite fmap_app. apply NoDup_app. split; [exact Hl|]. split.
    + intros id Hid Hid'. cbn in Hid'. apply list_elem_of_singleton in Hid'. subst id.
      apply existsb_uid in Hid. congruence.
    + cbn. apply NoDup_singleton.
  - unfold user_left. induction l as [|v l IH]; cbn; [constructor|].
    cbn in Hl. apply NoDup_cons in Hl as [Hv Hl].
    destruct (strict_eq (uid v) (uid u)); cbn; [now apply IH|].
    apply NoDup_cons. split; [|now apply IH].
    intros Hin. apply Hv. now apply (uids_user_left u l (uid v)) in Hin as [Hin _].
Qed.

(** Whatever the channel reports, and whether or not the subscriptions
    succeed, the list of remote users never holds a user id twice. *)
Lemma remote_users_distinct (events : list ChannelEvent) :
  NoDup (uid <$> remote_users events).
Proof.
  unfold remote_users.
  assert (Hgen : ∀ l, NoDup (uid <$> l) →
            NoDup (uid <$> foldl (λ prev e, on_channel e prev) l events)).
  { induction events as [|e events IH]; intros l Hl; cbn; [exact Hl|].
    apply IH. now apply on_channel_distinct. }
  apply Hgen. constructor.
Qed.

(** A user is listed exactly from a publication the page subscribed to
    until the user leaves: those two events settle whether the user's id is
    listed, a publication that could not be subscribed to changes nothing,
    and no event changes the listing of another user's id. *)
Lemma remote_user_listed (u : RemoteUser) (prev : list RemoteUser) :
  uid u ∈ (uid <$> on_channel (Published u true) prev) ∧
  (uid u ∉ (uid <$> on_channel (Left u) prev)) ∧
  on_channel (Published u false) prev = prev ∧
  ∀ v subscribed, uid v ≠ uid u →
    (uid u ∈ (uid <$> on_channel (Published v subscribed) prev) ↔
     uid u ∈ (uid <$> prev)) ∧
    (uid u ∈ (uid <$> on_channel (Left v) prev) ↔ uid u ∈ (uid <$> prev)).
Proof.
  repeat split.
  - cbn. unfold user_published.
    destruct (existsb (λ v, strict_eq (uid v) (uid u)) prev) eqn:Hin.
    + now apply existsb_uid.
    + rewrite fmap_app. apply elem_of_app. right. cbn. apply list_elem_of_singleton.
      reflexivity.
  - cbn. intros Hin. now apply uids_user_left in Hin as [_ Hne].
  - destruct subscribed; cbn; [|auto]. unfold user_published.
    destruct (existsb _ prev); [auto|].
    rewrite fmap_app. intros Hin. apply elem_of_app in Hin as [Hin|Hin]; [exact Hin|].
    cbn in Hin. apply list_elem_of_singleton in Hin. congruence.
  - destruct subscribed; cbn; [|auto]. unfold user_published.
    destruct (existsb _ prev); [auto|].
    rewrite fmap_app. intros Hin. apply elem_of_app. now left.
  - cbn. intros Hin. now apply uids_user_left in Hin as [Hin _].
  - cbn. intros Hin. apply uids_user_left. split; [exact Hin | congruence].
Qed.

End ChannelFacts.

(** ** The join page *)
Section JoinFacts.
Import Join.
Context `{Platform} `{Room.Backend}.
Variable builtin : Exn → string.

(** The inner [try] of [handleJoin] returns whatever the storage does, and
    writes the storage only; a name the storage takes is in it afterwards. *)
Lemma remember_returns (s : JoinState) :
  ∃ store,
    remember s =
      (Return (),
       {| step := step s; code := code s; meeting := meeting s; name := name s;
          preferredLanguage := preferredLanguage s; error := error s;
          loading := loading s; storage := store; calls := calls s;
          pushed := pushed s |}) ∧
    (setItem (storage s) "relay_participant_name" (name s) = Return () →
     store !! "relay_participant_name" = Some (name s)).
Proof.
  destruct s as [st c m n l e b store0 cs ps].
  unfold remember, storage_setItem, set_item. unfold_m. cbn.
  destruct (setItem store0 "relay_participant_name" n) as [[]|e1]; cbn.
  - destruct (setItem _ "relay_participant_language" _) as [[]|e2]; cbn;
      eexists; (split; [reflexivity|]); intros _.
    + rewrite lookup_insert_ne by discriminate. apply lookup_insert_eq.
    + apply lookup_insert_eq.
  - exists store0. split; [reflexivity | discriminate].
Qed.

(** Neither handler of the join page throws or leaves the page loading,
    whatever the server answers; [handleJoin] without a meeting looked up
    does nothing at all. *)
Lemma join_handlers_end_loading (s : JoinState) :
  (handleLookup builtin s).1 = Return () ∧
  loading (handleLookup builtin s).2 = false ∧
  (handleJoin builtin s).1 = Return () ∧
  match meeting s with
  | Some _ => loading (handleJoin builtin s).2 = false
  | None => handleJoin builtin s = (Return (), s)
  end.
Proof.
  unfold handleLookup, handleJoin, call, setError, setLoading, found,
    router_push. unfold_m. cbn -[remember].
  destruct (Room.getMeetingByCode (calls s) (code s)) as [m|e]; cbn -[remember].
  all: do 2 (split; [reflexivity|]).
  all: destruct (meeting s) as [m'|]; cbn -[remember]; [|split; reflexivity].
  all: match goal with |- context [remember ?x] =>
         destruct (remember_returns x) as (store & -> & _) end; cbn.
  all: destruct (Room.joinMeeting _ _) as [p|e']; cbn; split; reflexivity.
Qed.

(** From the join page to the room: when the storage takes the name and
    the server creates the participant, [handleJoin] pushes the room's
    route with the meeting's code and the new participant's id, and the
    room page, started with that code and id on the storage the join page
    leaves, adopts the id without creating a participant and shows the
    name typed on the join page, whether or not the storage took the
    language as well. *)
Lemma join_then_room_shows_name (s : JoinState) (m : Room.Meeting)
    (p : Room.Participant) (u : option Room.AuthUser) (m' : Room.Meeting) :
  meeting s = Some m →
  setItem (storage s) "relay_participant_name" (name s) = Return () →
  Room.joinMeeting (calls s)
    {| Room.create_meeting_id := Room.meeting_id m; Room.create_name := name s;
       Room.preferred_language := preferredLanguage s;
       Room.is_registered := None |} = Return p →
  name s ≠ "" →
  Room.participant_id p ≠ "" →
  Room.getMeetingByCode [] (Room.code m) = Return m' →
  let s' := (handleJoin builtin s).2 in
  let room := Room.init (Room.code m) (Some (Room.participant_id p)) u
                (Room.mounted (storage s')) in
  pushed s' =
    pushed s ++ ["/room/" +:+ Room.code m +:+ "?participantId="
                 +:+ Room.participant_id p] ∧
  error s' = None ∧
  room.1 = Return (Some (Room.participant_id p)) ∧
  Room.displayName room.2 = name s ∧
  Room.isHost room.2 = false ∧
  List.filter Room.is_join (Room.calls room.2) = [].
Proof.
  intros Hm Hstore Hp Hname Hid Hroom. cbv zeta.
  unfold handleJoin, call, setError, setLoading, router_push.
  unfold_m. cbn -[remember]. rewrite Hm. cbn -[remember].
  match goal with |- context [remember ?x] =>
    destruct (remember_returns x) as (store & -> & Hstored) end.
  cbn in Hstored. specialize (Hstored Hstore). cbn. rewrite Hp. cbn.
  split; [reflexivity|]. split; [reflexivity|].
  unfold Room.init, Room.call, Room.record_call, Room.setMeeting,
    Room.setParticipants, Room.setIdentity, Room.stored_name. unfold_m.
  cbn. rewrite Hroom. cbn.
  assert (Hpid : negb (String.eqb (Room.participant_id p) "") = true).
  { apply negb_true_iff, String.eqb_neq. exact Hid. }
  assert (Hn : String.eqb (name s) "" = false) by now apply String.eqb_neq.
  destruct (Room.listParticipants _ _) as [l|e]; cbn; rewrite Hpid; cbn.
  all: rewrite Hstored, Hn.
  all: repeat split.
Qed.

End JoinFacts.

(** ** The dashboard *)
Section DashboardFacts.
Import Dashboard.
Context `{Platform}.
Variable builtin : Exn → string.

Lemma listMeetings_store (s : DashboardState) :
  ∃ c req,
    Api.listMeetings (Auth.net (auth s)) =
      (c, {| window := window (Auth.net (auth s));
             requests := requests (Auth.net (auth s)) ++ [req] |}).
Proof. apply apiFetch_store. Qed.

(** When the listing fails with a text that holds [401] or
    [Unauthorized], [loadMeetings] signs the visitor out: both surfaces of
    the credential are emptied, no identity is published, and the login
    page is pushed once. It returns from the [catch]: the loading flag and
    the error cell are left as they were. *)
Lemma loadMeetings_signs_out (s : DashboardState) (w : Window) (err : Exn) :
  window (Auth.net (auth s)) = Some w →
  0 < Date_now w →
  (Api.listMeetings (Auth.net (auth s))).1 = Throw err →
  (let errorMessage := default (reason_of err) (message builtin err) in
   includes errorMessage "401" || includes errorMessage "Unauthorized") = true →
  let s' := (loadMeetings builtin s).2 in
  (loadMeetings builtin s).1 = Return () ∧
  Auth.stored_token (auth s') = None ∧
  Auth.cookie_token (auth s') = None ∧
  Auth.user (auth s') = VJson JNull ∧
  isRedirecting s' = true ∧
  pushed s' = pushed s ++ ["/login"] ∧
  loading s' = loading s ∧
  error s' = error s.
Proof.
  intros Hw Hnow Herr Hmark. cbv zeta in *.
  destruct (listMeetings_store s) as (c & req & Hlist).
  unfold loadMeetings, in_auth, Auth.in_net, setMeetings, setLoading, setError,
    setIsRedirecting, router_push. unfold_m.
  cbn -[Api.listMeetings]. rewrite Hlist in *. cbn in Herr. subst c. cbn.
  rewrite Hmark. cbn.
  unfold Auth.logout, Auth.in_net, Api.clearToken, Auth.deleteCookie,
    Auth.setUser, with_window. unfold_m. cbn. rewrite Hw. cbn.
  unfold Auth.stored_token, Auth.cookie_token, Auth.assign_cookie. cbn.
  assert (Hpast : (0 <=? Date_now w)%Z = true) by (apply Z.leb_le; lia).
  rewrite Hpast. cbn. rewrite !lookup_delete_eq. repeat split.
Qed.

(** Every other failure of the listing is shown and nothing else: the
    error cell takes the error's message, or [Failed to load sessions] for
    a rejection that is no error, the loading flag is cleared, the page's
    stores and the published identity stay, and nothing is pushed. The
    status of the response plays no part: a rejected credential whose text
    holds neither mark is such a failure. *)
Lemma loadMeetings_shows_other_failures (s : DashboardState) (err : Exn) :
  (Api.listMeetings (Auth.net (auth s))).1 = Throw err →
  (let errorMessage := default (reason_of err) (message builtin err) in
   includes errorMessage "401" || includes errorMessage "Unauthorized") = false →
  let s' := (loadMeetings builtin s).2 in
  (loadMeetings builtin s).1 = Return () ∧
  error s' = Some (default "Failed to load sessions" (message builtin err)) ∧
  loading s' = false ∧
  window (Auth.net (auth s')) = window (Auth.net (auth s)) ∧
  Auth.user (auth s') = Auth.user (auth s) ∧
  isRedirecting s' = isRedirecting s ∧
  pushed s' = pushed s.
Proof.
  intros Herr Hmark. cbv zeta in *.
  destruct (listMeetings_store s) as (c & req & Hlist).
  unfold loadMeetings, in_auth, Auth.in_net, setMeetings, setLoading, setError,
    setIsRedirecting, router_push. unfold_m.
  cbn -[Api.listMeetings]. rewrite Hlist in *. cbn in Herr. subst c. cbn.
  rewrite Hmark. cbn. repeat split.
Qed.

End DashboardFacts.

(** ** Closed examples for the further properties *)

(** [stored_token_is_sent] at a signed-in page asking for its meetings. *)
Lemma stored_token_is_sent_witness :
  let P := Fixtures.server (Return Fixtures.unauthorized) in
  let n := Fixtures.logged_in "tok" in
  window n = Some (Fixtures.holding "tok") ∧
  ∃ req,
    Api.request "/meetings/" Api.no_options n = (Return req, n) ∧
    req_headers req !! "Authorization" = Some "Bearer tok".
Proof.
  intros P n.
  assert (Hw : window n = Some (Fixtures.holding "tok")) by (vm_compute; reflexivity).
  split; [exact Hw|].
  destruct (stored_token_is_sent "/meetings/" Api.no_options n
              (Fixtures.holding "tok") "tok" Hw)
    as (req & Hreq & Hauth & _);
    [vm_compute; reflexivity | discriminate | discriminate |].
  exists req. split; [exact Hreq | exact Hauth].
Defined.

(** [empty_or_cleared_token_is_not_sent] at the same page once
    [clearToken] has run. *)
Lemma empty_or_cleared_token_is_not_sent_witness :
  let P := Fixtures.server (Return Fixtures.unauthorized) in
  let n := Fixtures.logged_in "tok" in
  window n = Some (Fixtures.holding "tok") ∧
  ∃ req,
    Api.request "/meetings/" Api.no_options (Api.clearToken n).2 =
      (Return req, (Api.clearToken n).2) ∧
    req_headers req !! "Authorization" = None.
Proof.
  intros P n.
  assert (Hw : window n = Some (Fixtures.holding "tok")) by (vm_compute; reflexivity).
  split; [exact Hw|].
  destruct (empty_or_cleared_token_is_not_sent "/meetings/" Api.no_options n
              (Fixtures.holding "tok") Hw) as (_ & req & Hreq & Hheaders).
  exists req. split; [exact Hreq|]. rewrite Hheaders. vm_compute. reflexivity.
Defined.

(** [frames_forwarded_in_order] on an open transport that receives a
    literal, a page of markup and another literal. *)
Lemma frames_forwarded_in_order_witness :
  let P := Fixtures.server (Throw (Rejected "offline")) in
  let w := Websocket.run [Websocket.Connect; Websocket.Browser (Websocket.Opened 0)]
             (Websocket.page Fixtures.quiet_client) in
  let frames := ["null"; "<html>"; "true"] in
  Websocket.state_of w 0 = Some Websocket.OPEN ∧
  Websocket.transcripts
    (Websocket.run ((λ data, Websocket.Browser (Websocket.Message 0 data)) <$> frames) w) =
    [JNull; JBool true].
Proof.
  intros P w frames. split; [reflexivity|].
  exact (frames_forwarded_in_order w 0%nat frames eq_refl).
Defined.

(** [login_persists_before_identity] at a gateway that accepts the login
    and a server that then refuses the identity: [login] fails, and the
    credential is in both surfaces. *)
Lemma login_persists_before_identity_witness :
  let P := Fixtures.gateway (Return (Fixtures.token_data "tok"))
                            (Return Fixtures.unauthorized) in
  let s := Auth.mounted (Fixtures.in_page Fixtures.blank_window) in
  let s' := (Auth.login "a@b.com" "secret" s).2 in
  (Auth.login "a@b.com" "secret" s).1 =
    Throw (Error "Could not validate credentials") ∧
  Auth.stored_token s' = Some "tok" ∧
  Auth.cookie_token s' = Some "tok".
Proof.
  intros P s s'. split; [vm_compute; reflexivity|].
  destruct (login_persists_before_identity "a@b.com" "secret" s Fixtures.blank_window
              (VJson (JObj [("access_token", JStr "tok"); ("token_type", JStr "bearer")]))
              (VJson (JStr "tok")) "tok")
    as (Hstore & Hcookie & _);
    [reflexivity | vm_compute; reflexivity | reflexivity | reflexivity |].
  split; [exact Hstore | exact Hcookie].
Defined.

(** [login_identity_request_carries_new_token] from a page that holds an
    older credential. *)
Lemma login_identity_request_carries_new_token_witness :
  let P := Fixtures.gateway (Return (Fixtures.token_data "tok"))
                            (Return Fixtures.unauthorized) in
  let s := Auth.mounted (Fixtures.logged_in "old") in
  Auth.stored_token s = Some "old" ∧
  ∃ r1 r2,
    requests (Auth.net (Auth.login "a@b.com" "secret" s).2) = [r1; r2] ∧
    req_headers r1 !! "Authorization" = None ∧
    req_headers r2 !! "Authorization" = Some "Bearer tok".
Proof.
  intros P s. split; [vm_compute; reflexivity|].
  destruct (login_identity_request_carries_new_token "a@b.com" "secret" s
              (Fixtures.holding "old")
              (VJson (JObj [("access_token", JStr "tok"); ("token_type", JStr "bearer")]))
              (VJson (JStr "tok")) "tok" "tok")
    as (r1 & r2 & Hreqs & _ & Hnone & _ & Hbearer);
    [vm_compute; reflexivity | vm_compute; reflexivity | reflexivity | reflexivity
    | discriminate | reflexivity | reflexivity |].
  exists r1, r2. split; [exact Hreqs|]. split; [exact Hnone | exact Hbearer].
Defined.

(** [login_gateway_failure] at a gateway that refuses the login. *)
Lemma login_gateway_failure_witness :
  let P := Fixtures.gateway (Return Fixtures.unauthorized)
                            (Return Fixtures.unauthorized) in
  let s := Auth.mounted (Fixtures.in_page Fixtures.blank_window) in
  let e := Error "Could not validate credentials" in
  (Api.loginCompany "a@b.com" "secret" (Auth.net s)).1 = Throw e ∧
  ∃ req,
    Auth.login "a@b.com" "secret" s =
      (Throw e,
       {| Auth.net := {| window := Some Fixtures.blank_window; requests := [req] |};
          Auth.user := VJson JNull; Auth.isLoading := true |}).
Proof.
  intros P s e.
  assert (Hfail : (Api.loginCompany "a@b.com" "secret" (Auth.net s)).1 = Throw e)
    by (vm_compute; reflexivity).
  split; [exact Hfail|].
  destruct (login_gateway_failure "a@b.com" "secret" s e (or_introl Hfail))
    as (req & Hlogin & _).
  exists req. exact Hlogin.
Defined.

(** [register_failure_skips_login] at a server that knows the email. *)
Lemma register_failure_skips_login_witness :
  let P := Fixtures.server (Return Fixtures.taken) in
  let s := Auth.mounted (Fixtures.in_page Fixtures.blank_window) in
  let e := Error "Email already registered" in
  (Api.registerCompany "Acme" "a@b.com" "secret" (Auth.net s)).1 = Throw e ∧
  ∃ req,
    Auth.register "Acme" "a@b.com" "secret" s =
      (Throw e,
       {| Auth.net := {| window := Some Fixtures.blank_window; requests := [req] |};
          Auth.user := VJson JNull; Auth.isLoading := true |}) ∧
    req_url req = "http://localhost:8000/auth/register".
Proof.
  intros P s e.
  assert (Hfail : (Api.registerCompany "Acme" "a@b.com" "secret" (Auth.net s)).1 = Throw e)
    by (vm_compute; reflexivity).
  split; [exact Hfail|].
  destruct (register_failure_skips_login "Acme" "a@b.com" "secret" s e Hfail)
    as (req & Hregister & Hurl & _).
  exists req. split; [exact Hregister | exact Hurl].
Defined.

(** [guard_after_logout] at a signed-in page and a path under the
    dashboard. *)
Lemma guard_after_logout_witness :
  let P := Fixtures.server (Return Fixtures.unauthorized) in
  let s := Auth.mounted (Fixtures.logged_in "tok") in
  let token := Auth.cookie_token (Auth.logout s).2 in
  Auth.cookie_token s = Some "tok" ∧
  Middleware.middleware "/dashboard/meetings" token =
    Middleware.redirect "/login" [("redirect", "/dashboard/meetings")] ∧
  Middleware.middleware "/login" token = Middleware.next ∧
  Middleware.middleware "/signup" token = Middleware.next.
Proof.
  intros P s token. split; [vm_compute; reflexivity|].
  apply (guard_after_logout s (Fixtures.holding "tok") "/dashboard/meetings");
    [vm_compute; reflexivity | reflexivity | reflexivity].
Defined.

(** [guard_after_failed_restore] at a page that holds the credential in
    both surfaces and a server that rejects it. *)
Lemma guard_after_failed_restore_witness :
  let P := Fixtures.server (Return Fixtures.unauthorized) in
  let s := Auth.mounted (Fixtures.logged_in "tok") in
  let s' := (Auth.restore s).2 in
  (Api.getMe (Auth.net s)).1 = Throw (Error "Could not validate credentials") ∧
  Auth.stored_token s' = None ∧
  Middleware.middleware "/login" (Auth.cookie_token s') =
    Middleware.redirect "/dashboard" [] ∧
  Middleware.middleware "/dashboard" (Auth.cookie_token s') = Middleware.next.
Proof.
  intros P s s'.
  assert (Hme : (Api.getMe (Auth.net s)).1 =
                Throw (Error "Could not validate credentials"))
    by (vm_compute; reflexivity).
  split; [exact Hme|].
  apply (guard_after_failed_restore s _ eq_refl eq_refl Hme).
Defined.

(** [init_failure_is_silent] for a host at a server that knows no
    meeting. *)
Lemma init_failure_is_silent_witness :
  let B := Fixtures.no_meeting in
  let usr := {| Room.email := "a@b.com"; Room.role := "company";
                Room.entity_id := "c-1" |} in
  let s := Room.mounted ∅ in
  let s' := (Room.init "ABC123" None (Some usr) s).2 in
  (Room.init "ABC123" None (Some usr) s).1 = Throw (Error "Meeting not found") ∧
  Room.error s' = None ∧
  Room.participantId s' = None ∧
  Room.calls s' = [Room.GetMeetingByCode "ABC123"].
Proof.
  intros B usr s s'.
  assert (Hthrow : (Room.init "ABC123" None (Some usr) s).1 =
                   Throw (Error "Meeting not found")) by reflexivity.
  split; [exact Hthrow|].
  destruct (init_failure_is_silent "ABC123" None (Some usr) s _ Hthrow)
    as (Herror & Hpid & _).
  split; [exact Herror|]. split; [exact Hpid | reflexivity].
Defined.

(** [join_then_room_shows_name] for a guest named Ada. *)
Lemma join_then_room_shows_name_witness :
  let P := Fixtures.server (Throw (Rejected "offline")) in
  let B := Fixtures.backend in
  let s := Fixtures.named "Ada" in
  let s' := (Join.handleJoin Fixtures.builtin s).2 in
  let room := Room.init "ABC123" (Some "p-1") None (Room.mounted (Join.storage s')) in
  Join.pushed s' = ["/room/ABC123?participantId=p-1"] ∧
  room.1 = Return (Some "p-1") ∧
  Room.displayName room.2 = "Ada".
Proof.
  intros P B s s' room.
  destruct (join_then_room_shows_name Fixtures.builtin s Fixtures.weekly
              {| Room.participant_id := "p-1"; Room.participant_name := "Ada" |}
              None Fixtures.weekly)
    as (Hpushed & _ & Hresult & Hname & _);
    [reflexivity | reflexivity | reflexivity | discriminate | discriminate
    | reflexivity |].
  split; [exact Hpushed|]. split; [exact Hresult | exact Hname].
Defined.

(** [loadMeetings_signs_out] at a server that rejects the credential with
    a body that is no JSON: the error's text is the synthesized status. *)
Lemma loadMeetings_signs_out_witness :
  let P := Fixtures.server (Return {| status := 401; json := Throw SyntaxError |}) in
  let s := Dashboard.mounted (Auth.mounted (Fixtures.logged_in "tok")) in
  let s' := (Dashboard.loadMeetings Fixtures.builtin s).2 in
  (Api.listMeetings (Auth.net (Dashboard.auth s))).1 = Throw (Error "HTTP 401") ∧
  Auth.stored_token (Dashboard.auth s') = None ∧
  Auth.cookie_token (Dashboard.auth s') = None ∧
  Dashboard.pushed s' = ["/login"] ∧
  Dashboard.loading s' = true.
Proof.
  intros P s s'.
  assert (Herr : (Api.listMeetings (Auth.net (Dashboard.auth s))).1 =
                 Throw (Error "HTTP 401")) by (vm_compute; reflexivity).
  split; [exact Herr|].
  destruct (loadMeetings_signs_out Fixtures.builtin s (Fixtures.holding "tok")
              (Error "HTTP 401"))
    as (_ & Hstore & Hcookie & _ & _ & Hpushed & Hloading & _);
    [vm_compute; reflexivity | reflexivity | exact Herr | reflexivity |].
  split; [exact Hstore|]. split; [exact Hcookie|].
  split; [exact Hpushed | exact Hloading].
Defined.

(** [loadMeetings_shows_other_failures] at a server that rejects the
    credential, status 401, with a detail that holds neither mark: the
    visitor stays signed in and sees the detail. *)
Lemma loadMeetings_shows_other_failures_witness :
  let P := Fixtures.server (Return Fixtures.unauthorized) in
  let s := Dashboard.mounted (Auth.mounted (Fixtures.logged_in "tok")) in
  let s' := (Dashboard.loadMeetings Fixtures.builtin s).2 in
  status Fixtures.unauthorized = 401 ∧
  (Api.listMeetings (Auth.net (Dashboard.auth s))).1 =
    Throw (Error "Could not validate credentials") ∧
  Dashboard.error s' = Some "Could not validate credentials" ∧
  Dashboard.loading s' = false ∧
  Auth.stored_token (Dashboard.auth s') = Some "tok" ∧
  Dashboard.pushed s' = [].
Proof.
  intros P s s'. split; [reflexivity|].
  assert (Herr : (Api.listMeetings (Auth.net (Dashboard.auth s))).1 =
                 Throw (Error "Could not validate credentials"))
    by (vm_compute; reflexivity).
  split; [exact Herr|].
  destruct (loadMeetings_shows_other_failures Fixtures.builtin s _ Herr eq_refl)
    as (_ & Herror & Hloading & Hwindow & _ & _ & Hpushed).
  split; [exact Herror|]. split; [exact Hloading|].
  split; [|exact Hpushed].
  unfold Auth.stored_token. subst s'. rewrite Hwindow. vm_compute. reflexivity.
Defined.

